(** * The agentic procurement assistant: reasoning loop, query executor and
      query validation

    A shallow embedding of [src/ai_agent_agentic.py] (class
    [AgenticProcurementAgent]) and of the validation half of
    [src/query_translator_langchain.py] (class [LangChainQueryTranslator]),
    together with the properties of the loop, the executor and the
    normalisation of records.

    Conventions of the embedding.
    - Values decoded from JSON (tool arguments, structured queries) are
      [json]; values of store documents are [pyval], which adds the two
      native handles of the driver ([ObjectId], [datetime]).  Numbers are
      integers.
    - A Python [dict] is an association list in insertion order with unique
      keys; [dict_get] and [dict_set] are lookup and item assignment.
    - A Python exception is an [exn]: its class and the text of [str(e)].
    - Calls that leave the process (the chat model, the document store, the
      web search) are events of an interaction tree [Prog]; an environment
      answers them.  Logging and wall-clock timing are left out: they do not
      feed the returned values. *)

From Stdlib Require Import String Ascii List ZArith Bool Lia DecimalString.
Import ListNotations.
Open Scope string_scope.
Open Scope list_scope.

Set Implicit Arguments.
Set Warnings "-register-all".

(** ** Strings *)

Definition dquote : string := String (ascii_of_nat 34) EmptyString.
Definition nl : string := String (ascii_of_nat 10) EmptyString.

(** Decimal rendering of an integer, as an f-string does. *)
Definition str_of_Z (z : Z) : string :=
  match z with
  | Z0 => "0"
  | Zpos p => NilZero.string_of_uint (Pos.to_uint p)
  | Zneg p => String.append "-" (NilZero.string_of_uint (Pos.to_uint p))
  end.

(** [needle in hay] on two Python strings. *)
Fixpoint is_substring (needle hay : string) : bool :=
  String.prefix needle hay
  || match hay with
     | EmptyString => false
     | String _ rest => is_substring needle rest
     end.

(** [sep.join(parts)] on a list of strings. *)
Definition join (sep : string) (parts : list string) : string :=
  String.concat sep parts.

(** The characters of a string, each as a one-character string. *)
Fixpoint chars (s : string) : list string :=
  match s with
  | EmptyString => []
  | String c rest => String c EmptyString :: chars rest
  end.

(** Left padding with zeros up to [width], as the format [%0Nd]. *)
Fixpoint zeros (n : nat) : string :=
  match n with O => "" | S k => String.append "0" (zeros k) end.

Definition pad0 (width : nat) (z : Z) : string :=
  let s := str_of_Z z in
  String.append (zeros (width - String.length s)) s.

(** ** Exceptions *)

Inductive exn_class : Type :=
| ValueError | KeyError | TypeError | AttributeError | JSONDecodeError
| OtherError.

Record exn : Type := Exn { exn_kind : exn_class; exn_msg : string }.

(** [result A] is the outcome of code that may raise. *)
Definition result (A : Type) : Type := (exn + A)%type.

Definition raise {A} (k : exn_class) (msg : string) : result A :=
  inl (Exn k msg).

Definition rbind {A B} (c : result A) (k : A -> result B) : result B :=
  match c with inl e => inl e | inr x => k x end.

(** ** Python values *)

Inductive json : Type :=
| JNull
| JBool (b : bool)
| JNum (n : Z)
| JStr (s : string)
| JList (items : list json)
| JDict (fields : list (string * json)).

(** [bson.ObjectId]: twelve bytes, [str(oid)] is their hexadecimal text. *)
Record ObjectId : Type := { oid_hex : string }.

(** A naive [datetime.datetime], as the driver returns it. *)
Record datetime : Type := {
  dt_year : Z; dt_month : Z; dt_day : Z;
  dt_hour : Z; dt_minute : Z; dt_second : Z; dt_microsecond : Z
}.

Inductive pyval : Type :=
| PNone
| PBool (b : bool)
| PNum (n : Z)
| PStr (s : string)
| PObjectId (oid : ObjectId)
| PDatetime (dt : datetime)
| PList (items : list pyval)
| PDict (fields : list (string * pyval)).

(** A store document. *)
Definition doc : Type := list (string * pyval).

(** [datetime.isoformat()]: [YYYY-MM-DDTHH:MM:SS], followed by [.ffffff]
    when the microsecond field is not zero. *)
Definition isoformat (dt : datetime) : string :=
  String.concat ""
    [ pad0 4 (dt_year dt); "-"; pad0 2 (dt_month dt); "-"; pad0 2 (dt_day dt);
      "T"; pad0 2 (dt_hour dt); ":"; pad0 2 (dt_minute dt); ":";
      pad0 2 (dt_second dt);
      if (dt_microsecond dt =? 0)%Z then ""
      else String.append "." (pad0 6 (dt_microsecond dt)) ].

(** *** Dictionaries *)

Section Dict.
Variable V : Type.

Fixpoint dict_get (d : list (string * V)) (k : string) : option V :=
  match d with
  | [] => None
  | (k', v) :: rest => if String.eqb k k' then Some v else dict_get rest k
  end.

(** [k in d] *)
Definition dict_mem (d : list (string * V)) (k : string) : bool :=
  match dict_get d k with Some _ => true | None => false end.

(** [d.get(k, default)] *)
Definition dict_get_default (d : list (string * V)) (k : string) (dflt : V)
  : V :=
  match dict_get d k with Some v => v | None => dflt end.

(** [d[k] = v]: replaces the value of an existing key in place, appends a
    new key at the end. *)
Fixpoint dict_set (d : list (string * V)) (k : string) (v : V)
  : list (string * V) :=
  match d with
  | [] => [(k, v)]
  | (k', v') :: rest =>
      if String.eqb k k' then (k', v) :: rest
      else (k', v') :: dict_set rest k v
  end.

Definition dict_keys (d : list (string * V)) : list string := map fst d.
End Dict.

(** *** Dynamic operations on decoded JSON *)

Definition is_str (v : json) (s : string) : bool :=
  match v with JStr s' => String.eqb s' s | _ => false end.

(** [type(v).__name__] *)
Definition type_name (v : json) : string :=
  match v with
  | JNull => "NoneType"
  | JBool _ => "bool"
  | JNum _ => "int"
  | JStr _ => "str"
  | JList _ => "list"
  | JDict _ => "dict"
  end.

(** [needle in v] for a string [needle]: key membership on a dict, element
    membership on a list, substring on a string, [TypeError] otherwise. *)
Definition py_contains (needle : string) (v : json) : result bool :=
  match v with
  | JDict d => inr (dict_mem d needle)
  | JList l => inr (existsb (fun x => is_str x needle) l)
  | JStr s => inr (is_substring needle s)
  | _ => raise TypeError
           (String.concat "" ["argument of type '"; type_name v;
                              "' is not iterable"])
  end.

(** [for x in v]: the elements a loop over [v] visits. *)
Definition py_iter (v : json) : result (list json) :=
  match v with
  | JList l => inr l
  | JDict d => inr (map JStr (dict_keys d))
  | JStr s => inr (map JStr (chars s))
  | _ => raise TypeError
           (String.concat "" ["'"; type_name v; "' object is not iterable"])
  end.

(** [any(needle in x for x in xs)]: stops at the first hit, so that a later
    element that would raise is not looked at. *)
Fixpoint any_contains (needle : string) (xs : list json) : result bool :=
  match xs with
  | [] => inr false
  | x :: rest =>
      match py_contains needle x with
      | inl e => inl e
      | inr true => inr true
      | inr false => any_contains needle rest
      end
  end.

(** [v[key]] for a string key. *)
Definition py_getitem (v : json) (key : string) : result json :=
  match v with
  | JDict d =>
      match dict_get d key with
      | Some x => inr x
      | None => raise KeyError (String.concat "" ["'"; key; "'"])
      end
  | JStr _ => raise TypeError "string indices must be integers"
  | JList _ => raise TypeError "list indices must be integers or slices, not str"
  | _ => raise TypeError
           (String.concat "" ["'"; type_name v; "' object is not subscriptable"])
  end.

(** Whether [json.dumps] accepts a store value, and the JSON value it
    writes: the two driver handles are refused wherever they sit. *)
Fixpoint to_json (v : pyval) : option json :=
  match v with
  | PNone => Some JNull
  | PBool b => Some (JBool b)
  | PNum n => Some (JNum n)
  | PStr s => Some (JStr s)
  | PObjectId _ => None
  | PDatetime _ => None
  | PList l =>
      option_map JList
        ((fix go (l : list pyval) : option (list json) :=
            match l with
            | [] => Some []
            | x :: r =>
                match to_json x, go r with
                | Some a, Some b => Some (a :: b)
                | _, _ => None
                end
            end) l)
  | PDict d =>
      option_map JDict
        ((fix go (d : list (string * pyval)) : option (list (string * json)) :=
            match d with
            | [] => Some []
            | (k, x) :: r =>
                match to_json x, go r with
                | Some a, Some b => Some ((k, a) :: b)
                | _, _ => None
                end
            end) d)
  end.

Fixpoint docs_to_json (ds : list doc) : option (list json) :=
  match ds with
  | [] => Some []
  | d :: r =>
      match to_json (PDict d), docs_to_json r with
      | Some a, Some b => Some (a :: b)
      | _, _ => None
      end
  end.

(** ** Conversation, events and interaction trees *)

(** A [tool_call] entry of an [AIMessage]. *)
Record ToolCall : Type := {
  tc_name : string;
  tc_args : list (string * json);
  tc_id : string
}.

(** The content of a model message: a plain string, or a list of fragments,
    each a string or a dict such as [{'type': 'text', 'text': ...}]. *)
Inductive Content : Type :=
| CText (s : string)
| CBlocks (items : list json).

(** What the loop reads of an [AIMessage].  [response_metadata] keeps the
    usage dicts (name to counter), under the key the provider files them. *)
Record AIMessage : Type := {
  content : Content;
  tool_calls : list ToolCall;
  response_metadata : list (string * list (string * Z))
}.

Inductive Message : Type :=
| SystemMessage (text : string)
| HumanMessage (text : string)
| AIMsg (m : AIMessage)
| ToolMessage (text : string) (tool_call_id : string).

(** The calls that leave the process.
    - [LLMInvoke msgs]: [self.llm_with_tools.invoke(messages)];
    - [TranslatorInvoke q]: the translator's prompt formatting, model call
      and reply extraction for the question [q], up to the text handed to
      [json.loads];
    - [CollFindOne]: [collection.find_one()];
    - [CollFind f l t]: [list(collection.find(f).limit(l))], with
      [max_time_ms] set to [t] when it is given;
    - [CollAggregate p t]: [list(collection.aggregate(p, maxTimeMS=t))];
    - [WebSearch q n]: [DuckDuckGoSearchResults(num_results=n).invoke(q)]. *)
Inductive Event : Type :=
| LLMInvoke (messages : list Message)
| TranslatorInvoke (user_query : json)
| CollFindOne
| CollFind (filter limit : json) (max_time_ms : option Z)
| CollAggregate (pipeline : json) (maxTimeMS : option Z)
| WebSearch (query max_results : json).

Definition Resp (e : Event) : Type :=
  match e with
  | LLMInvoke _ => result AIMessage
  | TranslatorInvoke _ => result string
  | CollFindOne => result (option doc)
  | CollFind _ _ _ => result (list doc)
  | CollAggregate _ _ => result (list doc)
  | WebSearch _ _ => result string
  end.

(** A program that issues events and ends with a value.  Every loop of the
    source is bounded, so the trees are finite. *)
Inductive Prog (A : Type) : Type :=
| Ret (a : A)
| Call (e : Event) (k : Resp e -> Prog A).

Arguments Ret {A} a.
Arguments Call {A} e k.

Fixpoint pbind {A B} (p : Prog A) (f : A -> Prog B) : Prog B :=
  match p with
  | Ret a => f a
  | Call e k => Call e (fun r => pbind (k r) f)
  end.

Definition call (e : Event) : Prog (Resp e) := Call e (fun r => Ret r).

(** Programs that may raise: the exception skips the rest. *)
Definition ebind {A B} (p : Prog (result A)) (f : A -> Prog (result B))
  : Prog (result B) :=
  pbind p (fun r => match r with inl e => Ret (inl e) | inr a => f a end).

Definition pure {A} (r : result A) : Prog (result A) := Ret r.

Declare Scope prog_scope.
Delimit Scope prog_scope with prog.
Notation "x <~ p ;; q" := (pbind p (fun x => q))
  (at level 61, p at next level, right associativity) : prog_scope.
Notation "x <- p ;; q" := (ebind p (fun x => q))
  (at level 61, p at next level, right associativity) : prog_scope.

(** *** Environments and runs *)

(** An environment answers every event and may change as it does. *)
Record Env : Type := {
  World : Type;
  handle : forall e : Event, World -> Resp e * World
}.

(** One answered event. *)
Definition Occ : Type := { e : Event & Resp e }.

Definition occ_event (o : Occ) : Event := projT1 o.

(** [run env p w] plays [p] against [env] from the world [w]: the value, the
    final world and the answered events in order. *)
Fixpoint run {A} (env : Env) (p : Prog A) (w : World env)
  : A * World env * list Occ :=
  match p with
  | Ret a => (a, w, [])
  | Call e k =>
      let '(r, w1) := handle env e w in
      let '(a, w2, tr) := run env (k r) w1 in
      (a, w2, existT Resp e r :: tr)
  end.

Definition value_of {A W} (x : A * W * list Occ) : A := fst (fst x).
Definition trace_of {A W} (x : A * W * list Occ) : list Occ := snd x.
Definition events_of {A W} (x : A * W * list Occ) : list Event :=
  map occ_event (snd x).

(** ** Configuration ([config.py]) and the Python runtime *)

Definition MAX_QUERY_RESULTS : Z := 100.
Definition QUERY_TIMEOUT_SECONDS : Z := 30.

(** Library functions whose output text no property below depends on, and
    the constant text of the system prompt. *)
Record Runtime : Type := {
  (** [json.loads]: the decoded value, or the message of the
      [JSONDecodeError] *)
  json_loads : string -> string + json;
  (** [json.dumps] on a value that holds no driver handle *)
  json_dumps : json -> string;
  (** [json.dumps(d, indent=2, default=str)] *)
  json_dumps_default_str : doc -> string;
  (** [repr] *)
  py_repr : json -> string;
  (** the system prompt, with or without the web search section *)
  system_prompt_text : bool -> string
}.

(** ** Record normalisation: [_serialize_results] *)

(** The [if]/[elif]/[else] on one value. *)
Definition serialize_value (v : pyval) : pyval :=
  match v with
  | PObjectId oid => PStr (oid_hex oid)
  | PDatetime dt => PStr (isoformat dt)
  | _ => v
  end.

(** The inner loop: [serialized_doc[key] = ...] for every item of [doc]. *)
Definition serialize_doc (d : doc) : doc :=
  fold_left (fun acc kv => dict_set acc (fst kv) (serialize_value (snd kv)))
            d [].

Definition _serialize_results (results : list doc) : list doc :=
  map serialize_doc results.

(** ** Query validation: [LangChainQueryTranslator.validate_query] *)

Definition destructive_stages : list string := ["$out"; "$merge"].

(** One turn of the loop over the stages: the stage is a dict and none of
    its keys is a destructive stage name. *)
Definition stage_allowed (stage : json) : bool :=
  match stage with
  | JDict d =>
      negb (existsb (fun stage_name =>
                       existsb (String.eqb stage_name) destructive_stages)
                    (dict_keys d))
  | _ => false
  end.

(** Returns the verdict and the query, which a [find] without [limit] leaves
    with the default limit written into it. *)
Definition validate_query (query_type query : json) : bool * json :=
  match query with
  | JDict q =>
      if is_str query_type "find" then
        match dict_get q "filter" with
        | None => (false, query)
        | Some (JDict _) =>
            if dict_mem q "limit" then (true, query)
            else (true, JDict (dict_set q "limit" (JNum MAX_QUERY_RESULTS)))
        | Some _ => (false, query)
        end
      else if is_str query_type "aggregate" then
        match dict_get q "pipeline" with
        | None => (false, query)
        | Some (JList pipeline) =>
            if (length pipeline =? 0)%nat then (false, query)
            else (forallb stage_allowed pipeline, query)
        | Some _ => (false, query)
        end
      else (false, query)
  | _ => (false, query)
  end.

Section Agent.

Variable rt : Runtime.
(** [self.enable_web_search] *)
Variable enable_web_search : bool.

Local Open Scope prog_scope.

(** [str(v)] / [f"{v}"] *)
Definition py_str (v : json) : string :=
  match v with JStr s => s | _ => py_repr rt v end.

(** *** The translator, from the model's reply on *)

Definition _validate_response_format (response : json) : result bool :=
  rbind (py_contains "query_type" response) (fun has_type =>
  if negb has_type then inr false else
  rbind (py_contains "query" response) (fun has_query =>
  if negb has_query then inr false else
  rbind (py_getitem response "query_type") (fun qt =>
  if negb (is_str qt "find" || is_str qt "aggregate") then inr false
  else inr true))).

Definition translate_reply (text : string) : result json :=
  match json_loads rt text with
  | inl m =>
      raise ValueError (String.append "LLM did not return valid JSON: " m)
  | inr parsed =>
      rbind (_validate_response_format parsed) (fun ok =>
      if negb ok then
        raise ValueError
              (String.append "Invalid response format: " (py_str parsed))
      else
        rbind (py_getitem parsed "query_type") (fun query_type =>
        rbind (py_getitem parsed "query") (fun query =>
        let '(valid, query) := validate_query query_type query in
        if negb valid then
          raise ValueError
                (String.append "Generated query failed validation: "
                               (py_str query))
        else
          inr (JDict
                 [("query_type", query_type);
                  ("query", query);
                  ("explanation",
                   match parsed with
                   | JDict p => dict_get_default p "explanation" (JStr "")
                   | _ => JStr ""
                   end)]))))
  end.

(** The two handlers of [translate]: a [KeyError] is turned into a
    [ValueError], anything else is raised again. *)
Definition rethrow_key_error {A} (r : result A) : result A :=
  match r with
  | inl (Exn KeyError m) =>
      raise ValueError
            (String.append "LLM response missing required field: " m)
  | _ => r
  end.

Definition translate (user_query : json) : Prog (result json) :=
  r <~ (text <- call (TranslatorInvoke user_query) ;;
        pure (translate_reply text)) ;;
  Ret (rethrow_key_error r).

(** *** The tools *)

Definition _tool_translate_query (user_question : json) : Prog string :=
  r <~ translate user_question ;;
  Ret (match r with
       | inr res => json_dumps rt res
       | inl e => json_dumps rt (JDict [("error", JStr (exn_msg e))])
       end).

Definition error_result (msg : string) : json :=
  JDict [("success", JBool false); ("error", JStr msg);
         ("results", JList []); ("count", JNum 0)].

Definition success_result (results : list json) : json :=
  JDict [("success", JBool true); ("results", JList results);
         ("count", JNum (Z.of_nat (length results)))].

(** [json.loads(query_json)]; an argument that is not a string raises a
    [TypeError], in the slice of the log line or in [json.loads]. *)
Definition loads_argument (query_json : json) : result json :=
  match query_json with
  | JStr s =>
      match json_loads rt s with
      | inl m => raise JSONDecodeError m
      | inr v => inr v
      end
  | _ => raise TypeError
           (String.append
              "the JSON object must be str, bytes or bytearray, not "
              (type_name query_json))
  end.

(** The aggregate branch up to the store call: a default limit stage is
    appended unless some stage holds [$limit] or [$count]. *)
Definition with_default_limit (pipeline : json) : result json :=
  rbind (py_iter pipeline) (fun stages =>
  rbind (any_contains "$limit" stages) (fun has_limit =>
  rbind (if has_limit then inr true else any_contains "$count" stages)
        (fun bounded =>
  if bounded then inr pipeline
  else
    match pipeline with
    | JList l => inr (JList (l ++ [JDict [("$limit", JNum MAX_QUERY_RESULTS)]]))
    | _ => raise AttributeError
             (String.concat ""
                ["'"; type_name pipeline;
                 "' object has no attribute 'append'"])
    end))).

(** The [if]/[elif]/[else] on [query_type], with [query] a dict. *)
Definition fetch_results (query_type : json) (query : list (string * json))
  : Prog (result (list doc)) :=
  if is_str query_type "find" then
    let filter_dict := dict_get_default query "filter" (JDict []) in
    let limit := dict_get_default query "limit" (JNum MAX_QUERY_RESULTS) in
    call (CollFind filter_dict limit None)
  else if is_str query_type "aggregate" then
    pipeline <- pure (with_default_limit
                        (dict_get_default query "pipeline" (JList []))) ;;
    call (CollAggregate pipeline (Some (QUERY_TIMEOUT_SECONDS * 1000)%Z))
  else
    pure (raise ValueError
                (String.append "Unsupported query type: "
                               (py_str query_type))).

(** The text after [Got keys:] in the message for a missing
    [query_type]. *)
Definition keys_text (query_data : json) : string :=
  match query_data with
  | JDict d => py_repr rt (JList (map JStr (dict_keys d)))
  | _ => "not a dict"
  end.

(** Both branches end alike: the documents are normalised and the
    success result is written. *)
Definition run_query (query_type : json) (query : list (string * json))
  : Prog (result string) :=
  results <- fetch_results query_type query ;;
  match docs_to_json (_serialize_results results) with
  | Some js => pure (inr (json_dumps rt (success_result js)))
  | None =>
      (* a driver handle is left below the top level *)
      pure (raise TypeError
              "Object of type ObjectId is not JSON serializable")
  end.

(** The [try] block from [query_type = query_data["query_type"]] on. *)
Definition execute_data (query_data : json) : Prog (result string) :=
  query_type <- pure (py_getitem query_data "query_type") ;;
  query <- pure (py_getitem query_data "query") ;;
  let query :=
    match query with
    | JList _ =>
        if is_str query_type "aggregate"
        then JDict [("pipeline", query)] else query
    | _ => query
    end in
  match query with
  | JDict q => run_query query_type q
  | _ =>
      pure (inr (json_dumps rt (error_result
        (String.append
           "Invalid query structure. Expected dict with 'filter' or 'pipeline', got "
           (type_name query)))))
  end.

(** The [try] block of [_tool_execute_query]. *)
Definition execute_try (query_json : json) : Prog (result string) :=
  query_data <- pure (loads_argument query_json) ;;
  match query_data with
  | JList _ =>
      pure (inr (json_dumps rt (error_result
        "Query translation returned a list instead of dict. Expected {query_type, query, explanation}.")))
  | _ =>
      has_type <- pure (py_contains "query_type" query_data) ;;
      if negb has_type then
        pure (inr (json_dumps rt (error_result
          (String.append "Missing 'query_type' in query data. Got keys: "
                         (keys_text query_data)))))
      else execute_data query_data
  end.

(** [_tool_execute_query]: the [try] block, and the handler that turns
    any exception into an error result. *)
Definition _tool_execute_query (query_json : json) : Prog string :=
  r <~ execute_try query_json ;;
  Ret (match r with
       | inr out => out
       | inl e => json_dumps rt (error_result (exn_msg e))
       end).

Definition _tool_search_web (query max_results : json) : Prog string :=
  r <~ call (WebSearch query max_results) ;;
  Ret (match r with
       | inr results_str =>
           json_dumps rt
             (JDict [("success", JBool true); ("query", query);
                     ("results", JStr results_str);
                     ("count", max_results)])
       | inl e =>
           json_dumps rt
             (JDict [("success", JBool false); ("error", JStr (exn_msg e));
                     ("query", query); ("results", JStr "");
                     ("count", JNum 0)])
       end).

Definition schema_sample_fields : list string :=
  ["department_name"; "supplier_name"; "item_name"; "total_price";
   "fiscal_year"; "fiscal_quarter"; "creation_date"; "quantity"].

Definition schema_notes : string :=
  String.concat ""
    ["Key Field Notes:"; nl;
     "- Dates: creation_date (string MM/DD/YYYY), fiscal_year (string ";
     dquote; "2013-2014"; dquote; "), fiscal_quarter (Q1-Q4)"; nl;
     "- Money: total_price (number), unit_price (number)"; nl;
     "- Identifiers: department_name, supplier_name, item_name"; nl;
     "- Grouping: Use fiscal_year and fiscal_quarter for time-based queries";
     nl].

Definition get_collection_schema : Prog string :=
  r <~ call CollFindOne ;;
  Ret (match r with
       | inl e => String.append "Error retrieving schema: " (exn_msg e)
       | inr None => "Collection is empty."
       | inr (Some []) => "Collection is empty."
       | inr (Some sample) =>
           let keys := dict_keys sample in
           let fields_list :=
             join ", " (filter (fun k => negb (String.eqb k "_id")) keys) in
           let sample_clean :=
             filter (fun kv =>
                       existsb (String.eqb (fst kv)) schema_sample_fields)
                    sample in
           String.concat ""
             ["Collection Fields: "; fields_list; nl; nl;
              "Sample Document:"; nl;
              json_dumps_default_str rt sample_clean; nl; nl;
              schema_notes]
       end).

(** *** The reasoning loop: [process_query] *)

Definition max_iterations : nat := 8.

(** The locals of [process_query] that the loop changes. *)
Record LoopState : Type := {
  messages : list Message;
  final_response : Content;
  iterations : nat;
  tool_calls_made : list string;
  total_input_tokens : Z;
  total_output_tokens : Z
}.

Record TokenCount : Type := {
  input_token_count : Z;
  output_token_count : Z;
  total_token_count : Z
}.

(** The returned dict; its constant entries ([translated_query], [results],
    [results_count]) and [execution_time] are left out. *)
Record AgentRunResult : Type := {
  success : bool;
  user_question : string;
  response : string;
  run_iterations : nat;
  tools_used : list string;
  web_search_enabled : bool;
  error : option string;
  token_count : TokenCount
}.

(** What one model message adds to the two counters: the OpenAI shape
    first, the Gemini shape when the first key is absent. *)
Definition token_delta (ai_msg : AIMessage) : Z * Z :=
  let metadata := response_metadata ai_msg in
  match metadata with
  | [] => (0, 0)%Z
  | _ =>
      match dict_get metadata "token_usage" with
      | Some usage =>
          (dict_get_default usage "prompt_tokens" 0%Z,
           dict_get_default usage "completion_tokens" 0%Z)
      | None =>
          match dict_get metadata "usage_metadata" with
          | Some usage =>
              (dict_get_default usage "prompt_token_count" 0%Z,
               dict_get_default usage "candidates_token_count" 0%Z)
          | None => (0, 0)%Z
          end
      end
  end.

(** The [if]/[elif] chain on the tool name. *)
Definition dispatch (tool_call : ToolCall) : Prog string :=
  let tool_name := tc_name tool_call in
  let tool_args := tc_args tool_call in
  if String.eqb tool_name "get_collection_schema" then
    get_collection_schema
  else if String.eqb tool_name "translate_query" then
    _tool_translate_query (dict_get_default tool_args "user_question" (JStr ""))
  else if String.eqb tool_name "execute_mongodb_query" then
    _tool_execute_query (dict_get_default tool_args "query_json" (JStr ""))
  else if String.eqb tool_name "search_web" then
    _tool_search_web (dict_get_default tool_args "query" (JStr ""))
                     (dict_get_default tool_args "max_results" (JNum 5))
  else Ret "Unknown Tool".

(** ACT and OBSERVE: the [for] loop over the tool calls of one message. *)
Fixpoint act (calls : list ToolCall) (st : LoopState) : Prog LoopState :=
  match calls with
  | [] => Ret st
  | tool_call :: rest =>
      tool_output <~ dispatch tool_call ;;
      act rest
          {| messages :=
               messages st ++ [ToolMessage tool_output (tc_id tool_call)];
             final_response := final_response st;
             iterations := iterations st;
             tool_calls_made := tool_calls_made st ++ [tc_name tool_call];
             total_input_tokens := total_input_tokens st;
             total_output_tokens := total_output_tokens st |}
  end.

(** THINK: the state after the model's message is appended and its tokens
    are counted. *)
Definition think (ai_msg : AIMessage) (st : LoopState) : LoopState :=
  {| messages := messages st ++ [AIMsg ai_msg];
     final_response := final_response st;
     iterations := iterations st;
     tool_calls_made := tool_calls_made st;
     total_input_tokens := (total_input_tokens st + fst (token_delta ai_msg))%Z;
     total_output_tokens :=
       (total_output_tokens st + snd (token_delta ai_msg))%Z |}.

Definition set_iterations (n : nat) (st : LoopState) : LoopState :=
  {| messages := messages st;
     final_response := final_response st;
     iterations := n;
     tool_calls_made := tool_calls_made st;
     total_input_tokens := total_input_tokens st;
     total_output_tokens := total_output_tokens st |}.

Definition set_final_response (c : Content) (st : LoopState) : LoopState :=
  {| messages := messages st;
     final_response := c;
     iterations := iterations st;
     tool_calls_made := tool_calls_made st;
     total_input_tokens := total_input_tokens st;
     total_output_tokens := total_output_tokens st |}.

(** The [while] loop.  It ends with the locals as they stand and, when the
    model call raised, the exception.  [fuel] bounds the unfolding;
    [max_iterations] turns of it are enough (see [agent_loop_fuel]). *)
Fixpoint agent_loop (fuel : nat) (st : LoopState)
  : Prog (LoopState * option exn) :=
  match fuel with
  | O => Ret (st, None)
  | S fuel' =>
      if (iterations st <? max_iterations)%nat then
        let st := set_iterations (iterations st + 1) st in
        Call (LLMInvoke (messages st)) (fun r =>
          match r with
          | inl e => Ret (st, Some e)
          | inr ai_msg =>
              let st := think ai_msg st in
              match tool_calls ai_msg with
              | [] => Ret (set_final_response (content ai_msg) st, None)
              | calls => st' <~ act calls st ;; agent_loop fuel' st'
              end
          end)
      else Ret (st, None)
  end.

(** [_extract_text_from_response] *)
Definition text_parts (items : list json) : list json :=
  flat_map (fun item =>
              match item with
              | JDict d =>
                  match dict_get d "text" with
                  | Some t => [t]
                  | None => []
                  end
              | JStr s => [JStr s]
              | _ => []
              end) items.

(** [''.join(parts)]: the first part that is not a string raises; [i] is
    the index of the head of [parts]. *)
Fixpoint join_parts_from (i : nat) (parts : list json) : result string :=
  match parts with
  | [] => inr ""
  | JStr s :: rest =>
      rbind (join_parts_from (S i) rest)
            (fun t => inr (String.append s t))
  | x :: _ =>
      raise TypeError
            (String.concat ""
               ["sequence item "; str_of_Z (Z.of_nat i);
                ": expected str instance, "; type_name x; " found"])
  end.

Definition join_parts (parts : list json) : result string :=
  join_parts_from 0 parts.

Definition _extract_text_from_response (resp : Content) : result string :=
  match resp with
  | CText s => inr s
  | CBlocks items =>
      match text_parts items with
      | [] => inr (py_repr rt (JList items))
      | parts => join_parts parts
      end
  end.

Definition _get_error_response (question err : string) : string :=
  String.concat ""
    ["I encountered an error while processing your question: ";
     dquote; question; dquote; nl; nl;
     "Error: "; err; nl; nl;
     "Please try rephrasing your question or make it more specific."].

Definition cap_response (made : list string) : string :=
  String.concat ""
    ["I apologize, but I reached the maximum number of reasoning steps (";
     str_of_Z (Z.of_nat max_iterations);
     ") while trying to answer your question. The tools I used were: ";
     join ", " made;
     ". Please try rephrasing your question or making it more specific."].

Definition token_count_of (st : LoopState) : TokenCount :=
  {| input_token_count := total_input_tokens st;
     output_token_count := total_output_tokens st;
     total_token_count := (total_input_tokens st + total_output_tokens st)%Z |}.

(** The [except Exception] handler of [process_query]. *)
Definition failure_result (question : string) (st : LoopState) (e : exn)
  : AgentRunResult :=
  {| success := false;
     user_question := question;
     response := _get_error_response question (exn_msg e);
     run_iterations := iterations st;
     tools_used := tool_calls_made st;
     web_search_enabled := enable_web_search;
     error := Some (exn_msg e);
     token_count := token_count_of st |}.

(** The code after the loop, still inside the [try]. *)
Definition conclude (question : string) (st : LoopState) : AgentRunResult :=
  let st :=
    if (max_iterations <=? iterations st)%nat
    then set_final_response (CText (cap_response (tool_calls_made st))) st
    else st in
  match _extract_text_from_response (final_response st) with
  | inl e => failure_result question st e
  | inr clean_response =>
      {| success := true;
         user_question := question;
         response := clean_response;
         run_iterations := iterations st;
         tools_used := tool_calls_made st;
         web_search_enabled := enable_web_search;
         error := None;
         token_count := token_count_of st |}
  end.

Definition initial_state (question : string) : LoopState :=
  {| messages := [SystemMessage (system_prompt_text rt enable_web_search);
                  HumanMessage question];
     final_response := CText "";
     iterations := 0;
     tool_calls_made := [];
     total_input_tokens := 0;
     total_output_tokens := 0 |}.

Definition process_query (question : string) : Prog AgentRunResult :=
  out <~ agent_loop max_iterations (initial_state question) ;;
  Ret (match out with
       | (st, Some e) => failure_result question st e
       | (st, None) => conclude question st
       end).

End Agent.
(** ** Vocabulary of the properties *)

(** The fields a document ends with, when its items are distinct. *)
Definition serialize_fields (d : doc) : doc :=
  map (fun kv => (fst kv, serialize_value (snd kv))) d.

(** A document that normalisation leaves alone. *)
Definition normal_doc (d : doc) : Prop :=
  NoDup (dict_keys d) /\
  Forall (fun kv => serialize_value (snd kv) = snd kv) d.

(** ** Fixtures for closed examples *)

(** A compact rendering of a JSON value. *)
Fixpoint show_json (v : json) : string :=
  match v with
  | JNull => "null"
  | JBool true => "true"
  | JBool false => "false"
  | JNum n => str_of_Z n
  | JStr s => String.concat "" [dquote; s; dquote]
  | JList l => String.concat "" ["["; join ", " (map show_json l); "]"]
  | JDict d =>
      String.concat ""
        ["{";
         join ", "
           (map (fun kv =>
                   match kv with
                   | (k, x) => String.concat "" [dquote; k; dquote; ": "; show_json x]
                   end) d);
         "}"]
  end.

(** A runtime whose decoder knows the texts listed in [known]. *)
Definition fixture_runtime (known : list (string * json)) : Runtime :=
  {| json_loads := fun s =>
       match dict_get known s with
       | Some v => inr v
       | None => inl "Expecting value: line 1 column 1 (char 0)"
       end;
     json_dumps := show_json;
     json_dumps_default_str := fun d =>
       show_json
         (JDict (map (fun kv =>
                        (fst kv,
                         match to_json (serialize_value (snd kv)) with
                         | Some j => j
                         | None => JStr "..."
                         end)) d));
     py_repr := show_json;
     system_prompt_text := fun _ =>
       "You are an expert Procurement Data Agent." |}.

(** A scripted model and store.  The world counts the model calls made. *)
Record Fixture : Type := {
  fx_model : nat -> list Message -> result AIMessage;
  fx_translator : json -> result string;
  fx_sample : result (option doc);
  fx_find : json -> json -> result (list doc);
  fx_aggregate : json -> result (list doc);
  fx_search : json -> json -> result string
}.

Definition fixture_env (f : Fixture) : Env :=
  {| World := nat;
     handle := fun e n =>
       match e as e0 return Resp e0 * nat with
       | LLMInvoke msgs => (fx_model f n msgs, S n)
       | TranslatorInvoke q => (fx_translator f q, n)
       | CollFindOne => (fx_sample f, n)
       | CollFind flt lim _ => (fx_find f flt lim, n)
       | CollAggregate p _ => (fx_aggregate f p, n)
       | WebSearch q k => (fx_search f q k, n)
       end |}.

(** Two store records: a raw purchase row and an aggregation row whose
    [_id] is the grouping key. *)
Definition sample_records : list doc :=
  [ [("_id", PObjectId {| oid_hex := "65f0a1b2c3d4e5f601234567" |});
     ("department_name", PStr "Transportation");
     ("creation_date_parsed",
      PDatetime {| dt_year := 2014; dt_month := 3; dt_day := 1;
                   dt_hour := 9; dt_minute := 5; dt_second := 0;
                   dt_microsecond := 0 |});
     ("total_price", PNum 1200)];
    [("_id", PStr "Transportation"); ("total", PNum 99000)] ].

(** The answer of the store in one trace entry, when the entry is a query. *)
Definition store_answer (o : Occ) : option (result (list doc)) :=
  match o with
  | existT _ e r =>
      match e return Resp e -> option (result (list doc)) with
      | CollFind _ _ _ => fun r => Some r
      | CollAggregate _ _ => fun r => Some r
      | _ => fun _ => None
      end r
  end.

(** The text the executor returns for a failure with the message [msg]:
    the dump of a dict with [success] false, the message under [error], an
    empty list under [results] and [count] 0. *)
Definition reports_failure (rt : Runtime) (out msg : string) : Prop :=
  out = json_dumps rt
          (JDict [("success", JBool false); ("error", JStr msg);
                  ("results", JList []); ("count", JNum 0)]).

(** The text the executor returns for the records [js]. *)
Definition reports_records (rt : Runtime) (out : string) (js : list json)
  : Prop :=
  out = json_dumps rt
          (JDict [("success", JBool true); ("results", JList js);
                  ("count", JNum (Z.of_nat (length js)))]).

(** What [_tool_execute_query] may end with, given the trace of its run:
    without a store query a failure report; after a store query that
    raised [e], the failure report of [str(e)]; after one that returned
    documents, the report of their normalisation, or a failure report when
    they do not serialise. *)
Definition executor_outcome (rt : Runtime) (out : string) (tr : list Occ)
  : Prop :=
  match tr with
  | [] => exists msg, reports_failure rt out msg
  | [o] =>
      match store_answer o with
      | Some (inl e) => reports_failure rt out (exn_msg e)
      | Some (inr docs) =>
          match docs_to_json (_serialize_results docs) with
          | Some js => reports_records rt out js
          | None => exists msg, reports_failure rt out msg
          end
      | None => False
      end
  | _ => False
  end.

Definition is_dict (v : json) : bool :=
  match v with JDict _ => true | _ => false end.

Definition is_list (v : json) : bool :=
  match v with JList _ => true | _ => false end.

(** The malformed arguments of [execute_mongodb_query], by the place that
    refuses them. *)
Inductive rejected (rt : Runtime) : json -> Prop :=
| rej_not_text (v : json) :
    (forall s, v <> JStr s) -> rejected rt v
| rej_not_json (s m : string) :
    json_loads rt s = inl m -> rejected rt (JStr s)
| rej_not_object (s : string) (v : json) :
    json_loads rt s = inr v -> is_dict v = false -> rejected rt (JStr s)
| rej_missing_query_type (s : string) (data : list (string * json)) :
    json_loads rt s = inr (JDict data) ->
    dict_get data "query_type" = None -> rejected rt (JStr s)
| rej_missing_query (s : string) (data : list (string * json)) :
    json_loads rt s = inr (JDict data) ->
    dict_get data "query" = None -> rejected rt (JStr s)
| rej_query_not_object (s : string) (data : list (string * json))
                       (query_type query : json) :
    json_loads rt s = inr (JDict data) ->
    dict_get data "query_type" = Some query_type ->
    dict_get data "query" = Some query ->
    is_dict query = false ->
    is_list query && is_str query_type "aggregate" = false ->
    rejected rt (JStr s)
| rej_unsupported_kind (s : string) (data : list (string * json))
                       (query_type query : json) :
    json_loads rt s = inr (JDict data) ->
    dict_get data "query_type" = Some query_type ->
    dict_get data "query" = Some query ->
    is_str query_type "find" = false ->
    is_str query_type "aggregate" = false ->
    rejected rt (JStr s)
| rej_pipeline_not_sequence (s : string) (data q : list (string * json))
                            (pipeline : json) :
    json_loads rt s = inr (JDict data) ->
    dict_get data "query_type" = Some (JStr "aggregate") ->
    dict_get data "query" = Some (JDict q) ->
    dict_get q "pipeline" = Some pipeline ->
    is_list pipeline = false ->
    is_dict pipeline = false ->
    rejected rt (JStr s).

(** How a piece of the [try] block of the executor may end, given the trace
    of its run from the world [w]: no store query, the world untouched and
    either an error result or an exception; or one store query and its
    answer passed on. *)
Definition try_outcome (rt : Runtime) {W : Type} (w : W)
           (x : result string * W * list Occ) : Prop :=
  let '(r, w', tr) := x in
  match tr with
  | [] =>
      w' = w /\
      ((exists msg, r = inr (json_dumps rt (error_result msg)))
       \/ exists e, r = inl e)
  | [o] =>
      match store_answer o with
      | Some (inl e) => r = inl e
      | Some (inr docs) =>
          match docs_to_json (_serialize_results docs) with
          | Some js => r = inr (json_dumps rt (success_result js))
          | None => exists e, r = inl e
          end
      | None => False
      end
  | _ => False
  end.

Arguments try_outcome : simpl never.

(** Four arguments of [execute_mongodb_query]: the text the model sends
    and the value [json.loads] makes of it. *)
Definition delete_text : string :=
  "{'query_type': 'delete', 'query': {'filter': {}}}".
Definition delete_data : list (string * json) :=
  [("query_type", JStr "delete"); ("query", JDict [("filter", JDict [])])].

Definition find_text : string :=
  "{'query_type': 'find', 'query': {'filter': {'fiscal_year': '2013-2014'}}}".
Definition find_query : list (string * json) :=
  [("filter", JDict [("fiscal_year", JStr "2013-2014")])].
Definition find_data : list (string * json) :=
  [("query_type", JStr "find"); ("query", JDict find_query)].

Definition group_text : string :=
  "{'query_type': 'aggregate', 'query': {'pipeline': [{'$group': {'_id': '$department_name'}}]}}".
Definition group_stages : list json :=
  [JDict [("$group", JDict [("_id", JStr "$department_name")])]].
Definition group_query : list (string * json) :=
  [("pipeline", JList group_stages)].
Definition group_data : list (string * json) :=
  [("query_type", JStr "aggregate"); ("query", JDict group_query)].

Definition out_text : string :=
  "{'query_type': 'aggregate', 'query': {'pipeline': [{'$limit': 1}, {'$out': 'purchase_orders'}]}}".
Definition out_stages : list json :=
  [JDict [("$limit", JNum 1)]; JDict [("$out", JStr "purchase_orders")]].
Definition out_query : list (string * json) :=
  [("pipeline", JList out_stages)].
Definition out_data : list (string * json) :=
  [("query_type", JStr "aggregate"); ("query", JDict out_query)].

(** The texts the decoder of the examples knows. *)
Definition known_texts : list (string * json) :=
  [ (delete_text, JDict delete_data); (find_text, JDict find_data);
    (group_text, JDict group_data); (out_text, JDict out_data) ].

Definition demo_rt : Runtime := fixture_runtime known_texts.

(** A store that answers every query with [sample_records]; no model. *)
Definition store_fixture : Fixture :=
  {| fx_model := fun _ _ => raise OtherError "no model in this fixture";
     fx_translator := fun _ => raise OtherError "no model in this fixture";
     fx_sample := inr (Some (hd [] sample_records));
     fx_find := fun _ _ => inr sample_records;
     fx_aggregate := fun _ => inr sample_records;
     fx_search := fun _ _ => inr "" |}.

(** A stage that is a dict and holds neither [$limit] nor [$count]. *)
Definition unbounded_stage (stage : json) : Prop :=
  exists d, stage = JDict d /\
            dict_mem d "$limit" = false /\ dict_mem d "$count" = false.

Definition default_limit_stage : json :=
  JDict [("$limit", JNum MAX_QUERY_RESULTS)].

(** The model call in one trace entry: the conversation sent and the
    answer. *)
Definition model_call (o : Occ) : option (list Message * result AIMessage) :=
  match o with
  | existT _ e r =>
      match e return Resp e -> option (list Message * result AIMessage) with
      | LLMInvoke msgs => fun r => Some (msgs, r)
      | _ => fun _ => None
      end r
  end.

(** The model calls of a trace, in order. *)
Definition model_calls (tr : list Occ)
  : list (list Message * result AIMessage) :=
  flat_map (fun o => match model_call o with Some c => [c] | None => [] end)
           tr.

(** The messages the model answered with, in order. *)
Definition replies (calls : list (list Message * result AIMessage))
  : list AIMessage :=
  flat_map (fun c => match snd c with inr ai => [ai] | inl _ => [] end) calls.

Definition model_replies (tr : list Occ) : list AIMessage :=
  replies (model_calls tr).

Definition sum_Z (l : list Z) : Z := fold_right Z.add 0%Z l.

(** The names the dispatcher knows. *)
Definition known_tool (name : string) : bool :=
  existsb (String.eqb name)
          ["get_collection_schema"; "translate_query";
           "execute_mongodb_query"; "search_web"].

(** [observed calls obs]: [obs] holds one [ToolMessage] per call, in the
    order of the calls, each under the id of its call; the one of a call
    with an unknown name says [Unknown Tool]. *)
Inductive observed : list ToolCall -> list Message -> Prop :=
| observed_nil : observed [] []
| observed_cons (tool_call : ToolCall) (calls : list ToolCall)
                (out : string) (obs : list Message) :
    (known_tool (tc_name tool_call) = false -> out = "Unknown Tool") ->
    observed calls obs ->
    observed (tool_call :: calls)
             (ToolMessage out (tc_id tool_call) :: obs).

(** [dialogue conv calls conv']: starting from the conversation [conv],
    every model call of [calls] is sent the conversation as it stands; its
    answer and one observation per tool call it asks for are appended
    before the next model call; [conv'] is the conversation at the end.  A
    model call that raises is the last one. *)
Inductive dialogue
  : list Message -> list (list Message * result AIMessage) -> list Message
    -> Prop :=
| dialogue_end (conv : list Message) : dialogue conv [] conv
| dialogue_raise (conv : list Message) (e : exn) :
    dialogue conv [(conv, inl e)] conv
| dialogue_turn (conv : list Message) (ai : AIMessage) (obs : list Message)
                (calls : list (list Message * result AIMessage))
                (conv' : list Message) :
    observed (tool_calls ai) obs ->
    dialogue (conv ++ AIMsg ai :: obs) calls conv' ->
    dialogue conv ((conv, inr ai) :: calls) conv'.

(** The [while] loop as a relation: from the locals [st] and the world [w]
    it ends with the locals and the exception (if any) of the third
    argument, in the world of the fourth, after the trace of the fifth. *)
Inductive loop_run (rt : Runtime) (env : Env)
  : LoopState -> World env -> LoopState * option exn -> World env
    -> list Occ -> Prop :=
| loop_stop (st : LoopState) (w : World env) :
    (max_iterations <= iterations st)%nat ->
    loop_run rt env st w (st, None) w []
| loop_raise (st : LoopState) (w w1 : World env) (e : exn) :
    (iterations st < max_iterations)%nat ->
    handle env (LLMInvoke (messages st)) w = (inl e, w1) ->
    loop_run rt env st w
             (set_iterations (iterations st + 1) st, Some e) w1
             [existT Resp (LLMInvoke (messages st)) (inl e)]
| loop_answer (st : LoopState) (w w1 : World env) (ai : AIMessage) :
    (iterations st < max_iterations)%nat ->
    handle env (LLMInvoke (messages st)) w = (inr ai, w1) ->
    tool_calls ai = [] ->
    loop_run rt env st w
             (set_final_response (content ai)
                (think ai (set_iterations (iterations st + 1) st)), None)
             w1
             [existT Resp (LLMInvoke (messages st)) (inr ai)]
| loop_turn (st : LoopState) (w w1 : World env) (ai : AIMessage)
            (st2 : LoopState) (w2 : World env) (tr2 : list Occ)
            (out : LoopState * option exn) (w3 : World env)
            (tr3 : list Occ) :
    (iterations st < max_iterations)%nat ->
    handle env (LLMInvoke (messages st)) w = (inr ai, w1) ->
    tool_calls ai <> [] ->
    run env (act rt (tool_calls ai)
                 (think ai (set_iterations (iterations st + 1) st))) w1
    = (st2, w2, tr2) ->
    loop_run rt env st2 w2 out w3 tr3 ->
    loop_run rt env st w out w3
             (existT Resp (LLMInvoke (messages st)) (inr ai) :: tr2 ++ tr3).

(** A model message that asks for the schema tool, and one that answers. *)
Definition asks_tool : AIMessage :=
  {| content := CText "";
     tool_calls := [ {| tc_name := "get_collection_schema";
                        tc_args := [];
                        tc_id := "call_schema" |} ];
     response_metadata :=
       [("token_usage", [("prompt_tokens", 120%Z);
                         ("completion_tokens", 15%Z)])] |}.

Definition final_answer : AIMessage :=
  {| content := CText "There are 42 orders in the database.";
     tool_calls := [];
     response_metadata :=
       [("usage_metadata", [("prompt_token_count", 300%Z);
                            ("candidates_token_count", 12%Z)])] |}.

Definition with_model (model : nat -> list Message -> result AIMessage)
  : Fixture :=
  {| fx_model := model;
     fx_translator := fx_translator store_fixture;
     fx_sample := fx_sample store_fixture;
     fx_find := fx_find store_fixture;
     fx_aggregate := fx_aggregate store_fixture;
     fx_search := fx_search store_fixture |}.

(** The model asks for a tool on seven turns and answers on the eighth. *)
Definition late_answer_fixture : Fixture :=
  with_model (fun n _ => if (n <? 7)%nat then inr asks_tool
                         else inr final_answer).

(** The model asks for a tool on every turn. *)
Definition always_tool_fixture : Fixture :=
  with_model (fun _ _ => inr asks_tool).

(** The model asks for a tool once and is unreachable afterwards. *)
Definition failing_model_fixture : Fixture :=
  with_model (fun n _ => if (n <? 1)%nat then inr asks_tool
                         else raise OtherError "503 Service Unavailable").

Definition orders_question : string :=
  "How many total orders are in the database?".

(** ** Vocabulary of the further properties *)

(** A pipeline stage that is a dict and names no destructive stage. *)
Definition harmless_stage (stage : json) : Prop :=
  exists d, stage = JDict d /\
            forall stage_name, In stage_name (dict_keys d) ->
                               ~ In stage_name destructive_stages.

(** Whether a stage that is a dict holds the key [k]. *)
Definition stage_has (k : string) (stage : json) : bool :=
  match stage with JDict d => dict_mem d k | _ => false end.

(** A document whose values, once normalised at the top level, hold no
    driver handle. *)
Definition transport_safe (d : doc) : Prop :=
  Forall (fun kv => to_json (serialize_value (snd kv)) <> None) d.

(** The inner loop of [to_json] on the fields of a dict. *)
Fixpoint fields_to_json (d : list (string * pyval))
  : option (list (string * json)) :=
  match d with
  | [] => Some []
  | (k, x) :: r =>
      match to_json x, fields_to_json r with
      | Some a, Some b => Some ((k, a) :: b)
      | _, _ => None
      end
  end.

(** Two more arguments of [execute_mongodb_query]: a pipeline passed as a
    bare list, and a [find] with a limit above the default. *)
Definition bare_text : string :=
  "{'query_type': 'aggregate', 'query': [{'$group': {'_id': '$department_name'}}]}".
Definition bare_data : list (string * json) :=
  [("query_type", JStr "aggregate"); ("query", JList group_stages)].

Definition wide_text : string :=
  "{'query_type': 'find', 'query': {'filter': {}, 'limit': 5000}}".
Definition wide_query : list (string * json) :=
  [("filter", JDict []); ("limit", JNum 5000)].
Definition wide_data : list (string * json) :=
  [("query_type", JStr "find"); ("query", JDict wide_query)].

Definition more_texts : list (string * json) :=
  known_texts ++ [ (bare_text, JDict bare_data); (wide_text, JDict wide_data) ].

Definition demo_rt2 : Runtime := fixture_runtime more_texts.

(** A translator model that replies with [find_text], and one that replies
    with the destructive [out_text]. *)
Definition with_translator (reply : json -> result string) : Fixture :=
  {| fx_model := fx_model store_fixture;
     fx_translator := reply;
     fx_sample := fx_sample store_fixture;
     fx_find := fx_find store_fixture;
     fx_aggregate := fx_aggregate store_fixture;
     fx_search := fx_search store_fixture |}.

Definition find_translator_fixture : Fixture :=
  with_translator (fun _ => inr find_text).

Definition out_translator_fixture : Fixture :=
  with_translator (fun _ => inr out_text).

(** A document with a value that still holds a driver handle after the
    normalisation of the top level. *)
Definition holds_nested_handle (d : doc) : Prop :=
  Exists (fun kv => to_json (serialize_value (snd kv)) = None) d.

(** An aggregation row whose grouping key is a sub-document with an
    [ObjectId] in it, and a store that answers with it. *)
Definition nested_records : list doc :=
  [ [("_id", PDict [("department_name", PStr "Transportation");
                    ("supplier", PObjectId {| oid_hex := "65f0a1b2c3d4e5f601234567" |})]);
     ("total", PNum 99000)] ].

Definition nested_store_fixture : Fixture :=
  {| fx_model := fx_model store_fixture;
     fx_translator := fx_translator store_fixture;
     fx_sample := fx_sample store_fixture;
     fx_find := fun _ _ => inr nested_records;
     fx_aggregate := fun _ => inr nested_records;
     fx_search := fx_search store_fixture |}.

(** The kind of external call each tool name may make. *)
Definition event_of_tool (name : string) (e : Event) : Prop :=
  match e with
  | LLMInvoke _ => False
  | TranslatorInvoke _ => name = "translate_query"
  | CollFindOne => name = "get_collection_schema"
  | CollFind _ _ _ => name = "execute_mongodb_query"
  | CollAggregate _ _ => name = "execute_mongodb_query"
  | WebSearch _ _ => name = "search_web"
  end.

(** A fragment of a model message that carries the text [t]: the string
    [t], or a dict whose [text] is the string [t]. *)
Definition text_fragment (item : json) (t : string) : Prop :=
  item = JStr t \/ exists d, item = JDict d /\ dict_get d "text" = Some (JStr t).

(** The model answers at once. *)
Definition direct_answer_fixture : Fixture :=
  with_model (fun _ _ => inr final_answer).

(** The model answers at once, with a fragment whose [text] is a number. *)
Definition odd_answer : AIMessage :=
  {| content := CBlocks [JDict [("type", JStr "text"); ("text", JNum 42)]];
     tool_calls := [];
     response_metadata := [] |}.

Definition odd_answer_fixture : Fixture :=
  with_model (fun _ _ => inr odd_answer).

(** ** Session history ([_add_to_history], [clear_history]) *)

(** One entry of [self.conversation_history]. *)
Record HistoryEntry : Type := {
  h_timestamp : string;
  h_question : string;
  h_response : string;
  h_query : option json;
  h_results_count : nat
}.

(** [_add_to_history]; [now] is the reading of the clock that the entry is
    stamped with.  The slice [history[-10:]] keeps the last ten entries. *)
Definition _add_to_history (history : list HistoryEntry)
           (now question response : string) (query : option json)
           (results : list doc) : list HistoryEntry :=
  let history :=
    history ++ [ {| h_timestamp := now;
                    h_question := question;
                    h_response := response;
                    h_query := query;
                    h_results_count := length results |} ] in
  if (10 <? length history)%nat
  then skipn (length history - 10) history
  else history.

Definition clear_history : list HistoryEntry := [].

(** The arguments of one call of [_add_to_history]. *)
Record Interaction : Type := {
  i_now : string;
  i_question : string;
  i_response : string;
  i_query : option json;
  i_results : list doc
}.

Definition entry_of (i : Interaction) : HistoryEntry :=
  {| h_timestamp := i_now i;
     h_question := i_question i;
     h_response := i_response i;
     h_query := i_query i;
     h_results_count := length (i_results i) |}.

(** The history after the interactions [l] are added one by one. *)
Definition record_all (history : list HistoryEntry) (l : list Interaction)
  : list HistoryEntry :=
  fold_left (fun h i =>
               _add_to_history h (i_now i) (i_question i) (i_response i)
                               (i_query i) (i_results i))
            l history.

(** The last ten elements of a list (all of them when there are fewer). *)
Definition last_ten {A} (l : list A) : list A := skipn (length l - 10) l.

(** ** The translator's reply, before [json.loads] *)

(** [c.isspace()] on an ASCII character. *)
Definition is_space (c : ascii) : bool :=
  let n := nat_of_ascii c in
  ((9 <=? n)%nat && (n <=? 13)%nat) || ((28 <=? n)%nat && (n <=? 32)%nat).

Fixpoint lstrip (s : string) : string :=
  match s with
  | EmptyString => EmptyString
  | String c rest => if is_space c then lstrip rest else s
  end.

Fixpoint rstrip (s : string) : string :=
  match s with
  | EmptyString => EmptyString
  | String c rest =>
      match rstrip rest with
      | EmptyString => if is_space c then EmptyString else String c EmptyString
      | kept => String c kept
      end
  end.

(** [s.strip()] *)
Definition strip (s : string) : string := rstrip (lstrip s).

(** What is left of [s] after the prefix [p], when [p] is a prefix. *)
Fixpoint drop_prefix (p s : string) : option string :=
  match p with
  | EmptyString => Some s
  | String a p' =>
      match s with
      | EmptyString => None
      | String b s' => if Ascii.eqb a b then drop_prefix p' s' else None
      end
  end.

(** The text before and the text after the first occurrence of [sep]. *)
Fixpoint cut (sep s : string) : option (string * string) :=
  match drop_prefix sep s with
  | Some rest => Some (EmptyString, rest)
  | None =>
      match s with
      | EmptyString => None
      | String c r =>
          match cut sep r with
          | Some (before, after) => Some (String c before, after)
          | None => None
          end
      end
  end.

(** [s.split(sep)[0]] *)
Definition split_item0 (sep s : string) : string :=
  match cut sep s with Some (before, _) => before | None => s end.

(** [s.split(sep)[1]]: an [IndexError] when [sep] does not occur. *)
Definition split_item1 (sep s : string) : result string :=
  match cut sep s with
  | Some (_, after) => inr (split_item0 sep after)
  | None => raise OtherError "list index out of range"
  end.

Definition fence : string := "```".
Definition json_fence : string := "```json".

(** [result.split(opening)[1].split("```")[0].strip()] *)
Definition unfence (opening reply : string) : result string :=
  rbind (split_item1 opening reply)
        (fun part => inr (strip (split_item0 fence part))).

(** Lines 275 to 281 of [translate]: the reply is stripped, and when it
    holds a Markdown code fence, the text inside the first fence is taken
    and stripped. *)
Definition clean_reply (reply : string) : result string :=
  let reply := strip reply in
  if is_substring json_fence reply then unfence json_fence reply
  else if is_substring fence reply then unfence fence reply
  else inr reply.

(** No backtick in the string. *)
Fixpoint no_backtick (s : string) : bool :=
  match s with
  | EmptyString => true
  | String c rest => negb (Ascii.eqb c "`") && no_backtick rest
  end.

(** The ids of the tool messages of a conversation and its model
    messages, in order. *)
Definition tool_message_ids (msgs : list Message) : list string :=
  flat_map (fun m => match m with ToolMessage _ id => [id] | _ => [] end) msgs.

Definition ai_messages (msgs : list Message) : list AIMessage :=
  flat_map (fun m => match m with AIMsg a => [a] | _ => [] end) msgs.

(** The content extraction of [translate] (lines 246 to 263): like
    [_extract_text_from_response], except that a fragment without text is
    kept as its [str], and that an empty list gives the empty string. *)
Definition reply_parts (rt : Runtime) (items : list json) : list json :=
  map (fun item =>
         match item with
         | JDict d =>
             match dict_get d "text" with
             | Some t => t
             | None => JStr (py_str rt item)
             end
         | JStr s => JStr s
         | _ => JStr (py_str rt item)
         end) items.

Definition reply_text (rt : Runtime) (c : Content) : result string :=
  match c with
  | CText s => inr s
  | CBlocks items => join_parts (reply_parts rt items)
  end.

(** The model asks for the schema and for an unknown tool in one message,
    then answers. *)
Definition two_calls : AIMessage :=
  {| content := CText "";
     tool_calls := [ {| tc_name := "get_collection_schema"; tc_args := [];
                        tc_id := "call_1" |};
                     {| tc_name := "drop_database"; tc_args := [];
                        tc_id := "call_2" |} ];
     response_metadata := [] |}.

Definition two_calls_fixture : Fixture :=
  with_model (fun n _ => if (n <? 1)%nat then inr two_calls
                         else inr final_answer).

(** A [find] query like [wide_query] that also asks for a sort order. *)
Definition sorted_text : string :=
  "{'query_type': 'find', 'query': {'filter': {}, 'limit': 5000, 'sort': {'total_price': -1}}}".
Definition sorted_query : list (string * json) :=
  [("filter", JDict []); ("limit", JNum 5000);
   ("sort", JDict [("total_price", JNum (-1))])].
Definition sorted_data : list (string * json) :=
  [("query_type", JStr "find"); ("query", JDict sorted_query)].

Definition demo_rt3 : Runtime :=
  fixture_runtime (more_texts ++ [(sorted_text, JDict sorted_data)]).

(** * Properties *)

Unset Implicit Arguments.

(** ** Running programs *)

Lemma run_pbind {A B} (env : Env) (p : Prog A) (f : A -> Prog B) :
  forall w,
    run env (pbind p f) w =
    let '(a, w1, t1) := run env p w in
    let '(b, w2, t2) := run env (f a) w1 in
    (b, w2, t1 ++ t2).
Proof.
  induction p as [a | e k IH]; intros w; simpl.
  - destruct (run env (f a) w) as [[b w2] t2]. reflexivity.
  - destruct (handle env e w) as [r w1].
    rewrite IH.
    destruct (run env (k r) w1) as [[a w2] t1].
    destruct (run env (f a) w2) as [[b w3] t2].
    reflexivity.
Qed.

Lemma run_ret {A} (env : Env) (a : A) (w : World env) :
  run env (Ret a) w = (a, w, []).
Proof. reflexivity. Qed.

(** ** Record normalisation *)

Lemma serialize_value_idem (v : pyval) :
  serialize_value (serialize_value v) = serialize_value v.
Proof. destruct v; reflexivity. Qed.

Lemma dict_set_fresh {V} (d : list (string * V)) (k : string) (v : V) :
  ~ In k (dict_keys d) -> dict_set d k v = d ++ [(k, v)].
Proof.
  induction d as [| [k' v'] d IH]; simpl; intros Hk.
  - reflexivity.
  - destruct (String.eqb_spec k k') as [-> | Hne].
    + exfalso. apply Hk. now left.
    + rewrite IH; [reflexivity | intros Hin; apply Hk; now right].
Qed.

Lemma dict_keys_set {V} (d : list (string * V)) (k : string) (v : V) :
  dict_keys (dict_set d k v) =
  if dict_mem d k then dict_keys d else dict_keys d ++ [k].
Proof.
  unfold dict_mem.
  induction d as [| [k' v'] d IH]; simpl.
  - reflexivity.
  - destruct (String.eqb_spec k k') as [-> | Hne]; simpl.
    + reflexivity.
    + rewrite IH. destruct (dict_get d k); reflexivity.
Qed.

Lemma dict_mem_In {V} (d : list (string * V)) (k : string) :
  dict_mem d k = true <-> In k (dict_keys d).
Proof.
  unfold dict_mem.
  induction d as [| [k' v'] d IH]; simpl.
  - split; [discriminate | tauto].
  - destruct (String.eqb_spec k k') as [-> | Hne].
    + split; auto.
    + rewrite IH. split; [auto | intros [H | H]; [congruence | exact H]].
Qed.

Lemma serialize_fold_nodup (d acc : doc) :
  NoDup (dict_keys acc ++ dict_keys d) ->
  fold_left (fun a kv => dict_set a (fst kv) (serialize_value (snd kv))) d acc
  = acc ++ serialize_fields d.
Proof.
  revert acc.
  induction d as [| [k v] d IH]; intros acc Hnd; simpl.
  - now rewrite app_nil_r.
  - simpl in Hnd.
    rewrite dict_set_fresh.
    + rewrite IH.
      * now rewrite <- app_assoc.
      * unfold dict_keys in *. rewrite map_app. simpl.
        rewrite <- app_assoc. exact Hnd.
    + apply NoDup_remove_2 in Hnd.
      intros Hin. apply Hnd. apply in_or_app. now left.
Qed.

Lemma serialize_doc_nodup (d : doc) :
  NoDup (dict_keys d) -> serialize_doc d = serialize_fields d.
Proof.
  intros Hnd. unfold serialize_doc.
  now rewrite serialize_fold_nodup.
Qed.

Lemma dict_set_normal (d : doc) (k : string) (v : pyval) :
  normal_doc d -> serialize_value v = v -> normal_doc (dict_set d k v).
Proof.
  intros [Hnd Hfix] Hv. split.
  - rewrite dict_keys_set.
    destruct (dict_mem d k) eqn:Hm; [exact Hnd |].
    apply NoDup_app; [exact Hnd | repeat constructor; intros [] | ].
    intros x Hx [<- | []].
    apply dict_mem_In in Hx. congruence.
  - clear Hnd. induction d as [| [k' v'] d IH]; simpl.
    + repeat constructor. exact Hv.
    + inversion Hfix as [| ? ? H1 H2]; subst.
      destruct (String.eqb k k'); constructor; auto.
Qed.

Lemma serialize_doc_normal (d : doc) : normal_doc (serialize_doc d).
Proof.
  unfold serialize_doc.
  assert (H : normal_doc []) by (split; constructor).
  revert H. generalize (@nil (string * pyval)).
  induction d as [| [k v] d IH]; intros acc Hacc; simpl.
  - exact Hacc.
  - apply IH. apply dict_set_normal; [exact Hacc | apply serialize_value_idem].
Qed.

Lemma serialize_doc_fixed (d : doc) : normal_doc d -> serialize_doc d = d.
Proof.
  intros [Hnd Hfix].
  rewrite serialize_doc_nodup by exact Hnd.
  unfold serialize_fields.
  induction Hfix as [| [k v] d Hv _ IH]; simpl.
  - reflexivity.
  - simpl in Hv. rewrite Hv. f_equal. apply IH. now inversion Hnd.
Qed.

(** C9.  [_serialize_results] maps every record field for field: an
    [ObjectId] value becomes its string, a [datetime] value its ISO-8601
    string, any other value is kept, and no field is dropped or added (the
    [_id] key of an aggregation row included).  Applying it to its own
    output changes nothing. *)
Theorem serialize_results_fieldwise_idempotent (results : list doc) :
  (Forall (fun d => NoDup (dict_keys d)) results ->
   _serialize_results results =
   map (map (fun kv =>
               (fst kv,
                match snd kv with
                | PObjectId oid => PStr (oid_hex oid)
                | PDatetime dt => PStr (isoformat dt)
                | other => other
                end))) results)
  /\ _serialize_results (_serialize_results results)
     = _serialize_results results.
Proof.
  split.
  - intros Hnd. unfold _serialize_results.
    apply map_ext_in. intros d Hd.
    rewrite Forall_forall in Hnd.
    rewrite serialize_doc_nodup by (apply Hnd; exact Hd).
    unfold serialize_fields. apply map_ext. intros [k v].
    destruct v; reflexivity.
  - unfold _serialize_results. rewrite map_map.
    apply map_ext. intros d.
    apply serialize_doc_fixed, serialize_doc_normal.
Qed.

Lemma serialize_results_fieldwise_idempotent_witness :
  Forall (fun d => NoDup (dict_keys d)) sample_records /\
  _serialize_results sample_records =
  [ [("_id", PStr "65f0a1b2c3d4e5f601234567");
     ("department_name", PStr "Transportation");
     ("creation_date_parsed", PStr "2014-03-01T09:05:00");
     ("total_price", PNum 1200)];
    [("_id", PStr "Transportation"); ("total", PNum 99000)] ].
Proof.
  assert (H : Forall (fun d => NoDup (dict_keys d)) sample_records).
  { repeat constructor; simpl; intuition discriminate. }
  split; [exact H |].
  rewrite (proj1 (serialize_results_fieldwise_idempotent sample_records) H).
  reflexivity.
Defined.

(** ** The query executor *)

Ltac break_match :=
  match goal with
  | |- context [match ?x with _ => _ end] => destruct x eqn:?
  end.

Lemma run_fetch_results rt env (query_type : json) q (w : World env) :
  let '(r, w', tr) := run env (fetch_results rt query_type q) w in
  match tr with
  | [] => w' = w /\ exists e, r = inl e
  | [o] => store_answer o = Some r
  | _ => False
  end.
Proof.
  unfold fetch_results, raise.
  destruct (is_str query_type "find").
  - simpl. destruct (handle env _ w) as [r w1]. reflexivity.
  - destruct (is_str query_type "aggregate").
    + unfold ebind, pure. simpl.
      destruct (with_default_limit _) as [e | p]; simpl.
      * split; eauto.
      * destruct (handle env _ w) as [r w1]. reflexivity.
    + simpl. split; eauto.
Qed.

Lemma run_run_query rt env (query_type : json) q (w : World env) :
  try_outcome rt w (run env (run_query rt query_type q) w).
Proof.
  unfold try_outcome, run_query, ebind. rewrite run_pbind.
  pose proof (run_fetch_results rt env query_type q w) as Hf.
  destruct (run env (fetch_results rt query_type q) w) as [[r w1] tr].
  destruct tr as [| o [| o' tr]]; [| | contradiction].
  - destruct Hf as [-> [e ->]]. simpl. eauto.
  - destruct r as [e | docs]; simpl.
    + rewrite Hf. reflexivity.
    + unfold pure, raise.
      destruct (docs_to_json (_serialize_results docs)) eqn:Hjs; simpl;
        rewrite Hf, Hjs; eauto.
Qed.

Lemma try_outcome_raise rt {W} (w : W) (e : exn) :
  try_outcome rt w (inl e, w, []).
Proof. unfold try_outcome. eauto. Qed.

Lemma try_outcome_error rt {W} (w : W) (msg : string) :
  try_outcome rt w (inr (json_dumps rt (error_result msg)), w, []).
Proof. unfold try_outcome. eauto. Qed.

Create HintDb executor.
#[local] Hint Resolve run_run_query try_outcome_raise try_outcome_error
  : executor.

Lemma run_execute_data rt env query_data (w : World env) :
  try_outcome rt w (run env (execute_data rt query_data) w).
Proof.
  unfold execute_data, ebind, pure. simpl.
  destruct (py_getitem query_data "query_type") as [e | query_type];
    simpl; [auto with executor |].
  destruct (py_getitem query_data "query") as [e' | query];
    simpl; [auto with executor |].
  destruct query; simpl; auto with executor.
  destruct (is_str query_type "aggregate"); simpl; auto with executor.
Qed.

Lemma run_execute_try rt env query_json (w : World env) :
  try_outcome rt w (run env (execute_try rt query_json) w).
Proof.
  unfold execute_try, ebind, pure. simpl.
  destruct (loads_argument rt query_json) as [e | query_data];
    simpl; [auto with executor |].
  destruct query_data; simpl; auto with executor;
    match goal with
    | |- context [negb ?has_type] =>
        destruct has_type; simpl; auto using run_execute_data with executor
    end.
Qed.

(** The executor on an argument that decodes to an object with a
    [query_type]. *)
Lemma tool_execute_object rt (s : string) data (query_type : json) :
  json_loads rt s = inr (JDict data) ->
  dict_get data "query_type" = Some query_type ->
  _tool_execute_query rt (JStr s) =
  pbind (execute_data rt (JDict data))
        (fun r => Ret (match r with
                       | inr out => out
                       | inl e => json_dumps rt (error_result (exn_msg e))
                       end)).
Proof.
  intros Hloads Htype.
  unfold _tool_execute_query, execute_try, ebind, pure, loads_argument.
  rewrite Hloads. simpl. unfold dict_mem. rewrite Htype. reflexivity.
Qed.

Lemma execute_data_object rt data (query_type query : json) :
  dict_get data "query_type" = Some query_type ->
  dict_get data "query" = Some query ->
  execute_data rt (JDict data) =
  match
    match query with
    | JList _ =>
        if is_str query_type "aggregate"
        then JDict [("pipeline", query)] else query
    | _ => query
    end
  with
  | JDict q => run_query rt query_type q
  | other =>
      Ret (inr (json_dumps rt (error_result
        (String.append
           "Invalid query structure. Expected dict with 'filter' or 'pipeline', got "
           (type_name other)))))
  end.
Proof.
  intros Htype Hquery.
  unfold execute_data, ebind, pure. simpl.
  rewrite Htype. simpl. rewrite Hquery. simpl.
  destruct query; try reflexivity.
  destruct (is_str query_type "aggregate"); reflexivity.
Qed.

Lemma is_substring_char (needle : string) (c : ascii) :
  (2 <= String.length needle)%nat ->
  is_substring needle (String c EmptyString) = false.
Proof.
  destruct needle as [| a [| b rest]]; simpl; try lia.
  intros _. destruct (ascii_dec a c); reflexivity.
Qed.

Lemma any_contains_chars (needle s : string) :
  (2 <= String.length needle)%nat ->
  any_contains needle (map JStr (chars s)) = inr false.
Proof.
  intros Hlen. induction s as [| c s IH].
  - reflexivity.
  - cbn [chars map any_contains py_contains].
    rewrite (is_substring_char needle c Hlen). exact IH.
Qed.

Lemma executor_outcome_of_try rt env query_json (w : World env) :
  let r := run env (_tool_execute_query rt query_json) w in
  executor_outcome rt (value_of r) (trace_of r).
Proof.
  unfold _tool_execute_query. rewrite run_pbind.
  pose proof (run_execute_try rt env query_json w) as Htry.
  unfold try_outcome in Htry.
  destruct (run env (execute_try rt query_json) w) as [[r w1] tr].
  unfold executor_outcome, reports_failure, reports_records,
    value_of, trace_of.
  simpl. rewrite app_nil_r.
  destruct tr as [| o [| o' tr]]; [| | contradiction].
  - destruct Htry as [_ [[msg ->] | [e ->]]]; eexists; reflexivity.
  - destruct (store_answer o) as [[e | docs] |]; [| | contradiction].
    + subst r. reflexivity.
    + destruct (docs_to_json (_serialize_results docs)).
      * subst r. reflexivity.
      * destruct Htry as [e ->]. eexists. reflexivity.
Qed.

Lemma rejected_is_error_result rt env (w : World env) query_json :
  rejected rt query_json ->
  exists msg,
    run env (_tool_execute_query rt query_json) w
    = (json_dumps rt (error_result msg), w, []).
Proof.
  intros Hrej.
  destruct Hrej as
    [ v Hv
    | s m Hloads
    | s v Hloads Hv
    | s data Hloads Htype
    | s data Hloads Hquery
    | s data query_type query Hloads Htype Hquery Hdict Hlist
    | s data query_type query Hloads Htype Hquery Hfind Hagg
    | s data q pipeline Hloads Htype Hquery Hpipe Hlist Hdict ].
  - destruct v; try (eexists; reflexivity).
    exfalso. eapply Hv. reflexivity.
  - unfold _tool_execute_query, execute_try, ebind, pure, loads_argument.
    rewrite Hloads. eexists. reflexivity.
  - unfold _tool_execute_query, execute_try, ebind, pure, loads_argument.
    rewrite Hloads.
    destruct v; try discriminate; try (eexists; reflexivity).
    simpl. destruct (is_substring "query_type" s0); eexists; reflexivity.
  - unfold _tool_execute_query, execute_try, ebind, pure, loads_argument.
    rewrite Hloads. simpl. unfold dict_mem. rewrite Htype.
    eexists. reflexivity.
  - destruct (dict_get data "query_type") as [query_type |] eqn:Htype.
    + rewrite (tool_execute_object rt s data _ Hloads Htype).
      unfold execute_data, ebind, pure. simpl.
      rewrite Htype. simpl. rewrite Hquery. eexists. reflexivity.
    + unfold _tool_execute_query, execute_try, ebind, pure, loads_argument.
      rewrite Hloads. simpl. unfold dict_mem. rewrite Htype.
      eexists. reflexivity.
  - rewrite (tool_execute_object rt s data _ Hloads Htype).
    rewrite (execute_data_object rt data _ _ Htype Hquery).
    destruct query; try discriminate; try (eexists; reflexivity).
    simpl in Hlist. rewrite Hlist. eexists. reflexivity.
  - rewrite (tool_execute_object rt s data _ Hloads Htype).
    rewrite (execute_data_object rt data _ _ Htype Hquery).
    rewrite Hagg.
    destruct query; try (eexists; reflexivity).
    unfold run_query, fetch_results, ebind, pure.
    rewrite Hfind, Hagg. eexists. reflexivity.
  - rewrite (tool_execute_object rt s data _ Hloads Htype).
    rewrite (execute_data_object rt data _ _ Htype Hquery).
    unfold run_query, fetch_results, ebind, pure, dict_get_default.
    rewrite Hpipe. simpl.
    destruct pipeline; try discriminate; try (eexists; reflexivity).
    unfold with_default_limit, rbind. cbn [py_iter].
    rewrite !any_contains_chars by (simpl; lia).
    eexists. reflexivity.
Qed.

(** C5.  [_tool_execute_query] returns a string on every argument and in
    every environment; it has no way to raise.  What it returns is the dump
    of the dict with [success] false, an [error] text, the empty list under
    [results] and [count] 0, unless the store was queried and answered with
    documents that serialise: a store query that raises gives that dict
    with the text of its exception under [error], and every malformed
    argument ([rejected]: not JSON, not an object, no [query_type], no
    [query], a query that is not an object, an unsupported kind, a pipeline
    that is not a sequence) gives that dict without the store being
    queried. *)
Theorem execute_query_failures_are_results
        rt env (w : World env) (query_json : json) :
  let r := run env (_tool_execute_query rt query_json) w in
  match trace_of r with
  | [] =>
      exists msg,
        value_of r
        = json_dumps rt
            (JDict [("success", JBool false); ("error", JStr msg);
                    ("results", JList []); ("count", JNum 0)])
  | [o] =>
      match store_answer o with
      | Some (inl e) =>
          value_of r
          = json_dumps rt
              (JDict [("success", JBool false); ("error", JStr (exn_msg e));
                      ("results", JList []); ("count", JNum 0)])
      | Some (inr docs) =>
          match docs_to_json (_serialize_results docs) with
          | Some js =>
              value_of r
              = json_dumps rt
                  (JDict [("success", JBool true); ("results", JList js);
                          ("count", JNum (Z.of_nat (length js)))])
          | None =>
              exists msg,
                value_of r
                = json_dumps rt
                    (JDict [("success", JBool false); ("error", JStr msg);
                            ("results", JList []); ("count", JNum 0)])
          end
      | None => False
      end
  | _ => False
  end
  /\ (rejected rt query_json ->
      exists msg,
        r = (json_dumps rt
               (JDict [("success", JBool false); ("error", JStr msg);
                       ("results", JList []); ("count", JNum 0)]),
             w, [])).
Proof.
  split.
  - exact (executor_outcome_of_try rt env query_json w).
  - intros Hrej.
    destruct (rejected_is_error_result rt env w query_json Hrej)
      as [msg Hrun].
    exists msg. exact Hrun.
Qed.

Lemma execute_query_failures_are_results_witness :
  rejected demo_rt (JStr delete_text)
  /\ exists msg,
       run (fixture_env store_fixture)
           (_tool_execute_query demo_rt (JStr delete_text)) 0%nat
       = (json_dumps demo_rt
            (JDict [("success", JBool false); ("error", JStr msg);
                    ("results", JList []); ("count", JNum 0)]),
          0%nat, []).
Proof.
  assert (H : rejected demo_rt (JStr delete_text)).
  { eapply rej_unsupported_kind; reflexivity. }
  split; [exact H |].
  exact (proj2 (execute_query_failures_are_results
                  demo_rt (fixture_env store_fixture) 0%nat _) H).
Defined.

(** *** What reaches the store *)

Lemma run_query_find_events rt env (w : World env) q :
  events_of (run env (run_query rt (JStr "find") q) w)
  = [CollFind (dict_get_default q "filter" (JDict []))
              (dict_get_default q "limit" (JNum MAX_QUERY_RESULTS)) None].
Proof.
  unfold run_query, fetch_results, ebind, pure, events_of. simpl.
  destruct (handle env _ w) as [r w1].
  destruct r as [e | docs]; simpl; [reflexivity |].
  destruct (docs_to_json (_serialize_results docs)); reflexivity.
Qed.

Lemma run_query_aggregate_events rt env (w : World env) q pipeline :
  with_default_limit (dict_get_default q "pipeline" (JList [])) = inr pipeline ->
  events_of (run env (run_query rt (JStr "aggregate") q) w)
  = [CollAggregate pipeline (Some (QUERY_TIMEOUT_SECONDS * 1000)%Z)].
Proof.
  intros Hp.
  unfold run_query, fetch_results, ebind, pure, events_of. simpl.
  rewrite Hp. simpl.
  destruct (handle env _ w) as [r w1].
  destruct r as [e | docs]; simpl; [reflexivity |].
  destruct (docs_to_json (_serialize_results docs)); reflexivity.
Qed.

Lemma events_of_pbind_ret {A B} env (p : Prog A) (f : A -> B) (w : World env) :
  events_of (run env (pbind p (fun a => Ret (f a))) w)
  = events_of (run env p w).
Proof.
  unfold events_of. rewrite run_pbind.
  destruct (run env p w) as [[a w1] tr]. simpl. now rewrite app_nil_r.
Qed.

Lemma execute_find_events rt env (w : World env) s data q :
  json_loads rt s = inr (JDict data) ->
  dict_get data "query_type" = Some (JStr "find") ->
  dict_get data "query" = Some (JDict q) ->
  events_of (run env (_tool_execute_query rt (JStr s)) w)
  = [CollFind (dict_get_default q "filter" (JDict []))
              (dict_get_default q "limit" (JNum MAX_QUERY_RESULTS)) None].
Proof.
  intros Hloads Htype Hquery.
  rewrite (tool_execute_object rt s data _ Hloads Htype).
  rewrite events_of_pbind_ret.
  rewrite (execute_data_object rt data _ _ Htype Hquery).
  apply run_query_find_events.
Qed.

Lemma execute_aggregate_events rt env (w : World env) s data q pipeline :
  json_loads rt s = inr (JDict data) ->
  dict_get data "query_type" = Some (JStr "aggregate") ->
  dict_get data "query" = Some (JDict q) ->
  with_default_limit (dict_get_default q "pipeline" (JList [])) = inr pipeline ->
  events_of (run env (_tool_execute_query rt (JStr s)) w)
  = [CollAggregate pipeline (Some (QUERY_TIMEOUT_SECONDS * 1000)%Z)].
Proof.
  intros Hloads Htype Hquery Hp.
  rewrite (tool_execute_object rt s data _ Hloads Htype).
  rewrite events_of_pbind_ret.
  rewrite (execute_data_object rt data _ _ Htype Hquery).
  now apply run_query_aggregate_events.
Qed.

Lemma any_contains_unbounded (stages : list json) :
  Forall unbounded_stage stages ->
  any_contains "$limit" stages = inr false /\
  any_contains "$count" stages = inr false.
Proof.
  induction 1 as [| stage stages (d & -> & Hl & Hc) _ [IHl IHc]].
  - split; reflexivity.
  - cbn [any_contains py_contains]. rewrite Hl, Hc. split; assumption.
Qed.

Lemma with_default_limit_unbounded (stages : list json) :
  Forall unbounded_stage stages ->
  with_default_limit (JList stages)
  = inr (JList (stages ++ [default_limit_stage])).
Proof.
  intros H. destruct (any_contains_unbounded stages H) as [Hl Hc].
  unfold with_default_limit, rbind. cbn [py_iter].
  rewrite Hl, Hc. reflexivity.
Qed.

Lemma dict_get_set_same {V} (d : list (string * V)) (k : string) (v : V) :
  dict_get (dict_set d k v) k = Some v.
Proof.
  induction d as [| [k' v'] d IH]; cbn [dict_get dict_set].
  - now rewrite String.eqb_refl.
  - destruct (String.eqb k k') eqn:E; cbn [dict_get]; rewrite E.
    + reflexivity.
    + exact IH.
Qed.

Lemma dict_get_set_other {V} (d : list (string * V)) (k k' : string) (v : V) :
  k <> k' -> dict_get (dict_set d k v) k' = dict_get d k'.
Proof.
  intros Hne.
  induction d as [| [k0 v0] d IH]; cbn [dict_get dict_set].
  - destruct (String.eqb_spec k' k); [congruence | reflexivity].
  - destruct (String.eqb_spec k k0) as [-> | Hk]; cbn [dict_get].
    + destruct (String.eqb_spec k' k0); [congruence | reflexivity].
    + now rewrite IH.
Qed.

Lemma validate_find_sets_limit (q : list (string * json)) (query' : json) :
  dict_mem q "limit" = false ->
  validate_query (JStr "find") (JDict q) = (true, query') ->
  exists q', query' = JDict q' /\
             dict_get q' "limit" = Some (JNum MAX_QUERY_RESULTS) /\
             dict_get q' "filter" = dict_get q "filter".
Proof.
  intros Hlimit Hvalid.
  unfold validate_query in Hvalid.
  change (is_str (JStr "find") "find") with true in Hvalid.
  cbv iota in Hvalid.
  destruct (dict_get q "filter") as [[] |] eqn:Hf; try discriminate.
  rewrite Hlimit in Hvalid. injection Hvalid as <-.
  eexists. split; [reflexivity |]. split.
  - apply dict_get_set_same.
  - rewrite dict_get_set_other by discriminate. exact Hf.
Qed.

(** C7.  Result sizes are bounded by default on both paths.  (1) A [find]
    query without a [limit] field that passes [validate_query] comes out of
    it with [limit] equal to [MAX_QUERY_RESULTS] (and its filter kept).
    (2) An aggregate query whose pipeline stages hold neither [$limit] nor
    [$count] is sent to the store with the default limit stage appended.
    (3) A [find] query that reaches the executor without a [limit] is sent
    to the store with the limit [MAX_QUERY_RESULTS]. *)
Theorem default_result_bound :
  (forall q query',
      dict_mem q "limit" = false ->
      validate_query (JStr "find") (JDict q) = (true, query') ->
      exists q', query' = JDict q' /\
                 dict_get q' "limit" = Some (JNum MAX_QUERY_RESULTS) /\
                 dict_get q' "filter" = dict_get q "filter")
  /\ (forall rt env (w : World env) s data q stages,
         json_loads rt s = inr (JDict data) ->
         dict_get data "query_type" = Some (JStr "aggregate") ->
         dict_get data "query" = Some (JDict q) ->
         dict_get q "pipeline" = Some (JList stages) ->
         Forall unbounded_stage stages ->
         events_of (run env (_tool_execute_query rt (JStr s)) w)
         = [CollAggregate (JList (stages ++ [default_limit_stage]))
                          (Some (QUERY_TIMEOUT_SECONDS * 1000)%Z)])
  /\ (forall rt env (w : World env) s data q,
         json_loads rt s = inr (JDict data) ->
         dict_get data "query_type" = Some (JStr "find") ->
         dict_get data "query" = Some (JDict q) ->
         dict_get q "limit" = None ->
         exists filter_dict,
           events_of (run env (_tool_execute_query rt (JStr s)) w)
           = [CollFind filter_dict (JNum MAX_QUERY_RESULTS) None]).
Proof.
  split; [| split].
  - exact validate_find_sets_limit.
  - intros rt env w s data q stages Hloads Htype Hquery Hpipe Hstages.
    apply (execute_aggregate_events rt env w s data q _ Hloads Htype Hquery).
    unfold dict_get_default. rewrite Hpipe.
    now apply with_default_limit_unbounded.
  - intros rt env w s data q Hloads Htype Hquery Hlimit.
    eexists.
    rewrite (execute_find_events rt env w s data q Hloads Htype Hquery).
    unfold dict_get_default at 2. rewrite Hlimit. reflexivity.
Qed.

Lemma default_result_bound_witness :
  (exists q',
      JDict (find_query ++ [("limit", JNum 100)]) = JDict q' /\
      dict_get q' "limit" = Some (JNum MAX_QUERY_RESULTS) /\
      dict_get q' "filter" = dict_get find_query "filter")
  /\ events_of
       (run (fixture_env store_fixture)
            (_tool_execute_query demo_rt (JStr group_text)) 0%nat)
     = [CollAggregate (JList (group_stages ++ [default_limit_stage]))
                      (Some (QUERY_TIMEOUT_SECONDS * 1000)%Z)]
  /\ exists filter_dict,
       events_of
         (run (fixture_env store_fixture)
              (_tool_execute_query demo_rt (JStr find_text)) 0%nat)
       = [CollFind filter_dict (JNum MAX_QUERY_RESULTS) None].
Proof.
  destruct default_result_bound as [Hvalidate [Haggregate Hfind]].
  split; [| split].
  - apply (Hvalidate find_query); reflexivity.
  - refine (Haggregate demo_rt (fixture_env store_fixture) 0%nat
              group_text group_data group_query group_stages
              eq_refl eq_refl eq_refl eq_refl _).
    repeat constructor.
    eexists. split; [reflexivity |]. split; reflexivity.
  - exact (Hfind demo_rt (fixture_env store_fixture) 0%nat
             find_text find_data find_query
             eq_refl eq_refl eq_refl eq_refl).
Defined.

Lemma validate_rejects_destructive
      (q : list (string * json)) (stages : list json)
      (d : list (string * json)) (stage_name : string) :
  dict_get q "pipeline" = Some (JList stages) ->
  In (JDict d) stages ->
  In stage_name (dict_keys d) ->
  In stage_name destructive_stages ->
  fst (validate_query (JStr "aggregate") (JDict q)) = false.
Proof.
  intros Hpipe Hstage Hkey Hbad.
  unfold validate_query.
  change (is_str (JStr "aggregate") "find") with false.
  change (is_str (JStr "aggregate") "aggregate") with true.
  cbv iota. rewrite Hpipe.
  destruct (length stages =? 0)%nat; [reflexivity |].
  cbn [fst].
  apply not_true_is_false. intros Hall.
  rewrite forallb_forall in Hall.
  specialize (Hall _ Hstage). cbn [stage_allowed] in Hall.
  apply negb_true_iff in Hall.
  assert (Hex : existsb
                  (fun name => existsb (String.eqb name) destructive_stages)
                  (dict_keys d) = true).
  { apply existsb_exists. exists stage_name. split; [exact Hkey |].
    apply existsb_exists. exists stage_name. split; [exact Hbad |].
    apply String.eqb_refl. }
  congruence.
Qed.

(** C2 (the code departs from the claim).  The destructive-stage check sits
    in [validate_query] alone: it refuses the pipeline
    [[{$limit: 1}, {$out: purchase_orders}]], yet [_tool_execute_query],
    given the same query directly, hands that pipeline to the store
    unchanged. *)
Theorem destructive_pipeline_reaches_store
        rt env (w : World env) (s : string) :
  json_loads rt s = inr (JDict out_data) ->
  fst (validate_query (JStr "aggregate") (JDict out_query)) = false
  /\ events_of (run env (_tool_execute_query rt (JStr s)) w)
     = [CollAggregate
          (JList [JDict [("$limit", JNum 1)];
                  JDict [("$out", JStr "purchase_orders")]])
          (Some 30000%Z)].
Proof.
  intros Hloads. split; [reflexivity |].
  apply (execute_aggregate_events rt env w s out_data out_query);
    [exact Hloads | reflexivity | reflexivity | reflexivity].
Qed.

Lemma destructive_pipeline_reaches_store_witness :
  json_loads demo_rt out_text = inr (JDict out_data)
  /\ fst (validate_query (JStr "aggregate") (JDict out_query)) = false
  /\ events_of (run (fixture_env store_fixture)
                    (_tool_execute_query demo_rt (JStr out_text)) 0%nat)
     = [CollAggregate
          (JList [JDict [("$limit", JNum 1)];
                  JDict [("$out", JStr "purchase_orders")]])
          (Some 30000%Z)].
Proof.
  split; [reflexivity |].
  exact (destructive_pipeline_reaches_store
           demo_rt (fixture_env store_fixture) 0%nat out_text eq_refl).
Defined.

(** C6 (the code departs from the claim).  A [find] query is sent to the
    store with no time budget: [max_time_ms] is left unset, whatever the
    filter and the limit.  Only the aggregate branch passes
    [QUERY_TIMEOUT_SECONDS] on. *)
Theorem find_runs_without_time_budget
        rt env (w : World env) (s : string) data q :
  json_loads rt s = inr (JDict data) ->
  dict_get data "query_type" = Some (JStr "find") ->
  dict_get data "query" = Some (JDict q) ->
  exists filter_dict limit,
    events_of (run env (_tool_execute_query rt (JStr s)) w)
    = [CollFind filter_dict limit None].
Proof.
  intros Hloads Htype Hquery. eexists. eexists.
  apply (execute_find_events rt env w s data q Hloads Htype Hquery).
Qed.

Lemma find_runs_without_time_budget_witness :
  json_loads demo_rt find_text = inr (JDict find_data)
  /\ exists filter_dict limit,
       events_of (run (fixture_env store_fixture)
                      (_tool_execute_query demo_rt (JStr find_text)) 0%nat)
       = [CollFind filter_dict limit None].
Proof.
  split; [reflexivity |].
  exact (find_runs_without_time_budget
           demo_rt (fixture_env store_fixture) 0%nat
           find_text find_data find_query eq_refl eq_refl eq_refl).
Defined.

(** ** The reasoning loop *)

Lemma model_calls_app (a b : list Occ) :
  model_calls (a ++ b) = model_calls a ++ model_calls b.
Proof. unfold model_calls. apply flat_map_app. Qed.

Lemma store_answer_no_model_call (o : Occ) :
  store_answer o <> None -> model_call o = None.
Proof.
  destruct o as [e r]. destruct e; simpl; congruence.
Qed.

Lemma execute_no_model_call rt env (w : World env) (query_json : json) :
  model_calls (trace_of (run env (_tool_execute_query rt query_json) w)) = [].
Proof.
  unfold _tool_execute_query, trace_of. rewrite run_pbind.
  pose proof (run_execute_try rt env query_json w) as Htry.
  unfold try_outcome in Htry.
  destruct (run env (execute_try rt query_json) w) as [[r w1] tr].
  simpl. rewrite app_nil_r.
  destruct tr as [| o [| o' tr]]; [reflexivity | | contradiction].
  unfold model_calls. simpl.
  rewrite store_answer_no_model_call; [reflexivity |].
  destruct (store_answer o); [discriminate | contradiction].
Qed.

Lemma translate_no_model_call rt env (w : World env) (user_question : json) :
  model_calls
    (trace_of (run env (_tool_translate_query rt user_question) w)) = [].
Proof.
  unfold _tool_translate_query, translate, ebind, pure, trace_of. simpl.
  destruct (handle env _ w) as [r w1].
  destruct r; reflexivity.
Qed.

Lemma search_no_model_call rt env (w : World env) (query max_results : json) :
  model_calls
    (trace_of (run env (_tool_search_web rt query max_results) w)) = [].
Proof.
  unfold _tool_search_web, trace_of. simpl.
  destruct (handle env _ w) as [r w1]. reflexivity.
Qed.

Lemma schema_no_model_call rt env (w : World env) :
  model_calls (trace_of (run env (get_collection_schema rt) w)) = [].
Proof.
  unfold get_collection_schema, trace_of. simpl.
  destruct (handle env _ w) as [r w1]. reflexivity.
Qed.

Lemma dispatch_no_model_call rt env (w : World env) (tool_call : ToolCall) :
  model_calls (trace_of (run env (dispatch rt tool_call) w)) = [].
Proof.
  unfold dispatch.
  destruct (String.eqb _ "get_collection_schema");
    [apply schema_no_model_call |].
  destruct (String.eqb _ "translate_query");
    [apply translate_no_model_call |].
  destruct (String.eqb _ "execute_mongodb_query");
    [apply execute_no_model_call |].
  destruct (String.eqb _ "search_web");
    [apply search_no_model_call | reflexivity].
Qed.

Lemma dispatch_unknown rt env (w : World env) (tool_call : ToolCall) :
  known_tool (tc_name tool_call) = false ->
  run env (dispatch rt tool_call) w = ("Unknown Tool", w, []).
Proof.
  unfold known_tool, dispatch. cbn [existsb].
  intros H.
  repeat (apply orb_false_elim in H; destruct H as [-> H]).
  reflexivity.
Qed.

(** What the [for] loop over the tool calls does to the locals. *)
Lemma act_spec rt env (calls : list ToolCall) :
  forall (st : LoopState) (w : World env),
    let r := run env (act rt calls st) w in
    let st' := value_of r in
    iterations st' = iterations st
    /\ final_response st' = final_response st
    /\ total_input_tokens st' = total_input_tokens st
    /\ total_output_tokens st' = total_output_tokens st
    /\ tool_calls_made st' = tool_calls_made st ++ map tc_name calls
    /\ (exists obs, observed calls obs /\ messages st' = messages st ++ obs)
    /\ model_calls (trace_of r) = [].
Proof.
  induction calls as [| tool_call calls IH]; intros st w; cbn zeta.
  - simpl. rewrite !app_nil_r.
    repeat split; try reflexivity.
    exists []. split; [constructor | now rewrite app_nil_r].
  - cbn [act]. rewrite run_pbind.
    pose proof (dispatch_no_model_call rt env w tool_call) as Hnone.
    pose proof (dispatch_unknown rt env w tool_call) as Hunknown.
    destruct (run env (dispatch rt tool_call) w) as [[out w1] tr1].
    match goal with
    | |- context [run env (act rt calls ?s) w1] =>
        specialize (IH s w1); cbn zeta in IH;
        destruct (run env (act rt calls s) w1) as [[st' w2] tr2]
    end.
    unfold value_of, trace_of in *. cbn [fst snd] in *.
    destruct IH as (Hi & Hf & Hti & Hto & Hmade & (obs & Hobs & Hmsgs) & Htr).
    cbn [iterations final_response total_input_tokens total_output_tokens
         tool_calls_made messages] in *.
    repeat split; try assumption.
    + rewrite Hmade, <- app_assoc. reflexivity.
    + exists (ToolMessage out (tc_id tool_call) :: obs). split.
      * constructor; [| exact Hobs].
        intros Hk. specialize (Hunknown Hk). congruence.
      * rewrite Hmsgs, <- app_assoc. reflexivity.
    + rewrite model_calls_app, Hnone, Htr. reflexivity.
Qed.

(** The loop function follows the relation, as soon as the fuel covers the
    turns that are left; [max_iterations] always does. *)
Lemma agent_loop_run rt env (fuel : nat) :
  forall (st : LoopState) (w : World env),
    (max_iterations - iterations st <= fuel)%nat ->
    let r := run env (agent_loop rt fuel st) w in
    loop_run rt env st w (value_of r) (snd (fst r)) (trace_of r).
Proof.
  induction fuel as [| fuel IH]; intros st w Hfuel; cbn zeta.
  - simpl. apply loop_stop. lia.
  - cbn [agent_loop].
    destruct (iterations st <? max_iterations)%nat eqn:Hlt.
    + apply Nat.ltb_lt in Hlt.
      cbn [run messages set_iterations].
      destruct (handle env (LLMInvoke (messages st)) w) as [r w1] eqn:Hh.
      destruct r as [e | ai].
      * simpl. apply loop_raise; assumption.
      * destruct (tool_calls ai) as [| c calls] eqn:Hcalls.
        -- simpl. apply loop_answer; assumption.
        -- rewrite run_pbind. rewrite <- Hcalls.
           pose proof (act_spec rt env (tool_calls ai)
                         (think ai (set_iterations (iterations st + 1) st))
                         w1) as Hact.
           cbn zeta in Hact.
           destruct (run env
                       (act rt (tool_calls ai)
                          (think ai (set_iterations (iterations st + 1) st)))
                       w1) as [[st2 w2] tr2] eqn:Hrun.
           unfold value_of in Hact. cbn [fst snd] in Hact.
           destruct Hact as (Hi & _).
           cbn [think set_iterations iterations] in Hi.
           assert (Hfuel2 : (max_iterations - iterations st2 <= fuel)%nat)
             by lia.
           specialize (IH st2 w2 Hfuel2). cbn zeta in IH.
           destruct (run env (agent_loop rt fuel st2) w2) as [[out w3] tr3].
           unfold value_of, trace_of in *. cbn [fst snd] in *.
           eapply loop_turn; eauto. congruence.
    + simpl. apply loop_stop. apply Nat.ltb_ge in Hlt. exact Hlt.
Qed.

Lemma agent_loop_unfold rt (fuel : nat) (st : LoopState) :
  agent_loop rt (S fuel) st =
  if (iterations st <? max_iterations)%nat then
    Call (LLMInvoke (messages st)) (fun r =>
      match r with
      | inl e => Ret (set_iterations (iterations st + 1) st, Some e)
      | inr ai_msg =>
          match tool_calls ai_msg with
          | [] =>
              Ret (set_final_response (content ai_msg)
                     (think ai_msg (set_iterations (iterations st + 1) st)),
                   None)
          | calls =>
              pbind (act rt calls
                         (think ai_msg
                                (set_iterations (iterations st + 1) st)))
                    (fun st' => agent_loop rt fuel st')
          end
      end)
  else Ret (st, None).
Proof.
  cbn [agent_loop]. destruct (iterations st <? max_iterations)%nat;
    reflexivity.
Qed.

(** More fuel than the turns that are left changes nothing. *)
Lemma agent_loop_fuel rt env (fuel : nat) :
  forall (st : LoopState) (w : World env),
    (max_iterations - iterations st <= fuel)%nat ->
    run env (agent_loop rt (S fuel) st) w = run env (agent_loop rt fuel st) w.
Proof.
  induction fuel as [| fuel IH]; intros st w Hfuel.
  - cbn [agent_loop].
    replace (iterations st <? max_iterations)%nat with false;
      [reflexivity |].
    symmetry. apply Nat.ltb_ge. lia.
  - rewrite (agent_loop_unfold rt (S fuel)), (agent_loop_unfold rt fuel).
    destruct (iterations st <? max_iterations)%nat eqn:Hlt; [| reflexivity].
    apply Nat.ltb_lt in Hlt.
    cbn [run].
    destruct (handle env (LLMInvoke (messages st)) w) as [r w1].
    destruct r as [e | ai]; [reflexivity |].
    destruct (tool_calls ai) as [| c calls] eqn:Hcalls; [reflexivity |].
    rewrite <- Hcalls. rewrite !run_pbind.
    pose proof (act_spec rt env (tool_calls ai)
                  (think ai (set_iterations (iterations st + 1) st))
                  w1) as Hact.
    cbn zeta in Hact.
    destruct (run env
                (act rt (tool_calls ai)
                   (think ai (set_iterations (iterations st + 1) st)))
                w1) as [[st2 w2] tr2].
    unfold value_of in Hact. cbn [fst snd] in Hact.
    destruct Hact as (Hi & _).
    cbn [think set_iterations iterations] in Hi.
    rewrite IH by lia. reflexivity.
Qed.

Lemma model_calls_turn (msgs : list Message) (r : result AIMessage)
      (tr2 tr3 : list Occ) :
  model_calls tr2 = [] ->
  model_calls (existT Resp (LLMInvoke msgs) r :: tr2 ++ tr3)
  = (msgs, r) :: model_calls tr3.
Proof.
  intros H2.
  change (existT Resp (LLMInvoke msgs) r :: tr2 ++ tr3)
    with ([existT Resp (LLMInvoke msgs) r] ++ tr2 ++ tr3).
  rewrite !model_calls_app, H2. reflexivity.
Qed.

(** The facts of [act_spec] for the turn of [loop_turn]. *)
Lemma turn_spec rt env (w1 : World env) (ai : AIMessage) (st st2 : LoopState)
      (w2 : World env) (tr2 : list Occ) :
  run env (act rt (tool_calls ai)
               (think ai (set_iterations (iterations st + 1) st))) w1
  = (st2, w2, tr2) ->
  iterations st2 = (iterations st + 1)%nat
  /\ final_response st2 = final_response st
  /\ total_input_tokens st2
     = (total_input_tokens st + fst (token_delta ai))%Z
  /\ total_output_tokens st2
     = (total_output_tokens st + snd (token_delta ai))%Z
  /\ tool_calls_made st2
     = tool_calls_made st ++ map tc_name (tool_calls ai)
  /\ (exists obs, observed (tool_calls ai) obs
                  /\ messages st2 = messages st ++ AIMsg ai :: obs)
  /\ model_calls tr2 = [].
Proof.
  intros Hrun.
  pose proof (act_spec rt env (tool_calls ai)
                (think ai (set_iterations (iterations st + 1) st)) w1) as H.
  cbn zeta in H. rewrite Hrun in H.
  unfold value_of, trace_of in H. cbn [fst snd] in H.
  destruct H as (Hi & Hf & Hti & Hto & Hmade & (obs & Hobs & Hmsgs) & Htr).
  cbn [think set_iterations iterations final_response total_input_tokens
       total_output_tokens tool_calls_made messages] in *.
  repeat split; try assumption.
  exists obs. split; [exact Hobs |].
  rewrite Hmsgs, <- app_assoc. reflexivity.
Qed.

Lemma loop_run_iterations rt env st (w : World env) out w' tr :
  loop_run rt env st w out w' tr ->
  (iterations st <= iterations (fst out))%nat
  /\ ((iterations st <= max_iterations)%nat ->
      (iterations (fst out) <= max_iterations)%nat).
Proof.
  induction 1 as
    [ st w Hge
    | st w w1 e Hlt Hh
    | st w w1 ai Hlt Hh Hcalls
    | st w w1 ai st2 w2 tr2 out w3 tr3 Hlt Hh Hcalls Hact Hrest IH ];
    cbn [fst set_iterations set_final_response think iterations];
    try lia.
  apply turn_spec in Hact. destruct Hact as (Hi & _). lia.
Qed.

Lemma loop_run_tokens rt env st (w : World env) out w' tr :
  loop_run rt env st w out w' tr ->
  total_input_tokens (fst out)
  = (total_input_tokens st
     + sum_Z (map (fun ai => fst (token_delta ai)) (model_replies tr)))%Z
  /\ total_output_tokens (fst out)
     = (total_output_tokens st
        + sum_Z (map (fun ai => snd (token_delta ai)) (model_replies tr)))%Z.
Proof.
  induction 1 as
    [ st w Hge
    | st w w1 e Hlt Hh
    | st w w1 ai Hlt Hh Hcalls
    | st w w1 ai st2 w2 tr2 out w3 tr3 Hlt Hh Hcalls Hact Hrest IH ].
  - simpl. lia.
  - simpl. lia.
  - simpl. lia.
  - apply turn_spec in Hact.
    destruct Hact as (_ & _ & Hti & Hto & _ & _ & Htr).
    unfold model_replies in *. rewrite (model_calls_turn _ _ _ _ Htr).
    destruct IH as [IHi IHo]. rewrite IHi, IHo, Hti, Hto.
    simpl. lia.
Qed.

Lemma loop_run_dialogue rt env st (w : World env) out w' tr :
  loop_run rt env st w out w' tr ->
  dialogue (messages st) (model_calls tr) (messages (fst out))
  /\ tool_calls_made (fst out)
     = tool_calls_made st
       ++ flat_map (fun ai => map tc_name (tool_calls ai)) (model_replies tr).
Proof.
  induction 1 as
    [ st w Hge
    | st w w1 e Hlt Hh
    | st w w1 ai Hlt Hh Hcalls
    | st w w1 ai st2 w2 tr2 out w3 tr3 Hlt Hh Hcalls Hact Hrest IH ].
  - simpl. rewrite app_nil_r. split; [constructor | reflexivity].
  - simpl. rewrite app_nil_r. split; [constructor | reflexivity].
  - simpl. rewrite Hcalls. simpl. rewrite app_nil_r. split; [| reflexivity].
    apply dialogue_turn with (obs := []).
    + rewrite Hcalls. constructor.
    + constructor.
  - apply turn_spec in Hact.
    destruct Hact as (_ & _ & _ & _ & Hmade & (obs & Hobs & Hmsgs) & Htr).
    unfold model_replies in *. rewrite (model_calls_turn _ _ _ _ Htr).
    destruct IH as [IHd IHm]. split.
    + apply dialogue_turn with (obs := obs); [exact Hobs |].
      rewrite <- Hmsgs. exact IHd.
    + rewrite IHm, Hmade. simpl. rewrite <- !app_assoc. reflexivity.
Qed.

(** The exception the loop ends with is the one of the model call that
    raised, and there is one whenever a model call raised. *)
Lemma loop_run_raise rt env st (w : World env) out w' tr :
  loop_run rt env st w out w' tr ->
  (forall msgs e, In (msgs, inl e) (model_calls tr) -> snd out = Some e)
  /\ (forall e, snd out = Some e ->
                exists msgs, In (msgs, inl e) (model_calls tr)).
Proof.
  induction 1 as
    [ st w Hge
    | st w w1 e Hlt Hh
    | st w w1 ai Hlt Hh Hcalls
    | st w w1 ai st2 w2 tr2 out w3 tr3 Hlt Hh Hcalls Hact Hrest IH ].
  - simpl. split; [tauto | discriminate].
  - simpl. split.
    + intros msgs e' [Heq | []]. congruence.
    + intros e' He. injection He as <-. eauto.
  - simpl. split; [| discriminate].
    intros msgs e' [Heq | []]. congruence.
  - apply turn_spec in Hact. destruct Hact as (_ & _ & _ & _ & _ & _ & Htr).
    rewrite (model_calls_turn _ _ _ _ Htr).
    destruct IH as [IH1 IH2]. split.
    + intros msgs e' [Heq | Hin]; [congruence | eauto].
    + intros e' He. destruct (IH2 e' He) as [msgs Hin].
      exists msgs. now right.
Qed.

(** A model that asks for a tool on every turn drives the loop to the
    cap. *)
Lemma loop_run_always_tools rt env st (w : World env) out w' tr :
  (forall msgs (w0 : World env),
      exists ai, fst (handle env (LLMInvoke msgs) w0) = inr ai
                 /\ tool_calls ai <> []) ->
  loop_run rt env st w out w' tr ->
  (iterations st <= max_iterations)%nat ->
  snd out = None
  /\ iterations (fst out) = max_iterations
  /\ final_response (fst out) = final_response st.
Proof.
  intros Hmodel.
  induction 1 as
    [ st w Hge
    | st w w1 e Hlt Hh
    | st w w1 ai Hlt Hh Hcalls
    | st w w1 ai st2 w2 tr2 out w3 tr3 Hlt Hh Hcalls Hact Hrest IH ];
    intros Hle.
  - simpl. repeat split; [lia].
  - exfalso. destruct (Hmodel (messages st) w) as (ai & Hai & _).
    rewrite Hh in Hai. discriminate.
  - exfalso. destruct (Hmodel (messages st) w) as (ai' & Hai & Hne).
    rewrite Hh in Hai. simpl in Hai. congruence.
  - apply turn_spec in Hact. destruct Hact as (Hi & Hf & _).
    destruct IH as (H1 & H2 & H3); [lia |].
    repeat split; [exact H1 | exact H2 | congruence].
Qed.

(** When the last model call answered without asking for a tool, the loop
    ends without an exception and [final_response] is the content of that
    answer. *)
Lemma loop_run_answer rt env st (w : World env) out w' tr :
  loop_run rt env st w out w' tr ->
  forall before msgs ai,
    model_calls tr = before ++ [(msgs, inr ai)] ->
    tool_calls ai = [] ->
    snd out = None
    /\ final_response (fst out) = content ai
    /\ iterations (fst out) = (iterations st + length (model_calls tr))%nat.
Proof.
  induction 1 as
    [ st w Hge
    | st w w1 e Hlt Hh
    | st w w1 ai0 Hlt Hh Hcalls
    | st w w1 ai0 st2 w2 tr2 out w3 tr3 Hlt Hh Hcalls Hact Hrest IH ];
    intros before msgs ai Hlast Hnone.
  - simpl in Hlast. destruct before; discriminate.
  - simpl in Hlast.
    destruct before as [| c [| c' before]]; simpl in Hlast;
      try discriminate; congruence.
  - simpl in Hlast.
    destruct before as [| c [| c' before]]; simpl in Hlast;
      try discriminate.
    injection Hlast as _ <-. simpl. repeat split; lia.
  - apply turn_spec in Hact. destruct Hact as (Hi & _ & _ & _ & _ & _ & Htr).
    rewrite (model_calls_turn _ _ _ _ Htr) in *.
    destruct before as [| c before]; simpl in Hlast.
    + injection Hlast as _ Hai _. congruence.
    + injection Hlast as _ Hrest'.
      destruct (IH before msgs ai Hrest' Hnone) as (H1 & H2 & H3).
      repeat split; [exact H1 | exact H2 |].
      rewrite H3, Hi. simpl. lia.
Qed.

(** [process_query] runs the loop from the initial locals and builds its
    result from the locals the loop ends with. *)
Lemma run_process_query rt ews env (w : World env) (q : string) :
  let r := run env (process_query rt ews q) w in
  exists out w',
    loop_run rt env (initial_state rt ews q) w out w' (trace_of r)
    /\ run env (agent_loop rt max_iterations (initial_state rt ews q)) w
       = (out, w', trace_of r)
    /\ value_of r
       = match out with
         | (st, Some e) => failure_result ews q st e
         | (st, None) => conclude rt ews q st
         end.
Proof.
  cbn zeta. unfold process_query. rewrite run_pbind.
  pose proof (agent_loop_run rt env max_iterations (initial_state rt ews q) w)
    as Hloop.
  cbn zeta in Hloop.
  destruct (run env (agent_loop rt max_iterations (initial_state rt ews q)) w)
    as [[out w'] tr].
  unfold value_of, trace_of in *. cbn [fst snd run] in *.
  rewrite app_nil_r.
  exists out, w'. split; [| split; reflexivity].
  apply Hloop. apply Nat.le_sub_l.
Qed.

Lemma conclude_fields rt ews (q : string) (st : LoopState) :
  run_iterations (conclude rt ews q st) = iterations st
  /\ tools_used (conclude rt ews q st) = tool_calls_made st
  /\ token_count (conclude rt ews q st) = token_count_of st
  /\ (success (conclude rt ews q st) = false ->
      exists msg, error (conclude rt ews q st) = Some msg
                  /\ response (conclude rt ews q st)
                     = _get_error_response q msg)
  /\ (success (conclude rt ews q st) = true ->
      error (conclude rt ews q st) = None).
Proof.
  unfold conclude.
  destruct (max_iterations <=? iterations st)%nat;
    match goal with
    | |- context [_extract_text_from_response rt ?c] =>
        destruct (_extract_text_from_response rt c)
    end; simpl; repeat split; try discriminate; eauto.
Qed.

Lemma conclude_at_cap rt ews (q : string) (st : LoopState) :
  iterations st = max_iterations ->
  conclude rt ews q st
  = {| success := true;
       user_question := q;
       response := cap_response (tool_calls_made st);
       run_iterations := iterations st;
       tools_used := tool_calls_made st;
       web_search_enabled := ews;
       error := None;
       token_count := token_count_of st |}.
Proof.
  intros Hcap. unfold conclude.
  replace (max_iterations <=? iterations st)%nat with true
    by (symmetry; apply Nat.leb_le; rewrite Hcap; apply Nat.le_refl).
  reflexivity.
Qed.

Lemma conclude_below_cap rt ews (q : string) (st : LoopState) (text : string) :
  (iterations st < max_iterations)%nat ->
  _extract_text_from_response rt (final_response st) = inr text ->
  conclude rt ews q st
  = {| success := true;
       user_question := q;
       response := text;
       run_iterations := iterations st;
       tools_used := tool_calls_made st;
       web_search_enabled := ews;
       error := None;
       token_count := token_count_of st |}.
Proof.
  intros Hlt Htext. unfold conclude.
  replace (max_iterations <=? iterations st)%nat with false
    by (symmetry; apply Nat.leb_gt; exact Hlt).
  rewrite Htext. reflexivity.
Qed.

(** The answer of a turn before the last is returned. *)
Lemma answer_below_cap rt ews env (w : World env) (q : string)
      before msgs ai (text : string) :
  let r := run env (process_query rt ews q) w in
  model_calls (trace_of r) = before ++ [(msgs, inr ai)] ->
  tool_calls ai = [] ->
  (length (model_calls (trace_of r)) < max_iterations)%nat ->
  _extract_text_from_response rt (content ai) = inr text ->
  success (value_of r) = true
  /\ response (value_of r) = text
  /\ run_iterations (value_of r) = length (model_calls (trace_of r)).
Proof.
  cbn zeta. intros Hlast Hnone Hlen Htext.
  destruct (run_process_query rt ews env w q) as (out & w' & Hloop & _ & Hval).
  destruct (loop_run_answer _ _ _ _ _ _ _ Hloop _ _ _ Hlast Hnone)
    as (Hexn & Hfinal & Hiter).
  destruct out as [st oe]. cbn [fst snd] in *. subst oe.
  rewrite Hval.
  rewrite (conclude_below_cap rt ews q st text).
  - simpl. repeat split. exact Hiter.
  - rewrite Hiter. simpl. exact Hlen.
  - rewrite Hfinal. exact Htext.
Qed.

(** C1 (the code departs from the claim).  When the model answers without
    a tool call on the turn at the cap (its eighth call), the loop leaves
    with that answer in [final_response], and the test after the loop
    replaces it: the response returned is the text about the cap, whatever
    the model wrote. *)
Theorem answer_at_cap_is_replaced rt ews env (w : World env) (q : string)
        before msgs ai :
  let r := run env (process_query rt ews q) w in
  model_calls (trace_of r) = before ++ [(msgs, inr ai)] ->
  tool_calls ai = [] ->
  length before = 7%nat ->
  success (value_of r) = true
  /\ run_iterations (value_of r) = 8%nat
  /\ response (value_of r)
     = String.concat ""
         ["I apologize, but I reached the maximum number of reasoning steps (8) while trying to answer your question. The tools I used were: ";
          join ", " (tools_used (value_of r));
          ". Please try rephrasing your question or making it more specific."].
Proof.
  cbn zeta. intros Hlast Hnone Hlen.
  destruct (run_process_query rt ews env w q) as (out & w' & Hloop & _ & Hval).
  destruct (loop_run_answer _ _ _ _ _ _ _ Hloop _ _ _ Hlast Hnone)
    as (Hexn & Hfinal & Hiter).
  destruct out as [st oe]. cbn [fst snd] in *. subst oe.
  rewrite Hval.
  rewrite conclude_at_cap.
  - simpl. repeat split.
    rewrite Hiter, Hlast, length_app, Hlen. reflexivity.
  - rewrite Hiter, Hlast, length_app, Hlen. reflexivity.
Qed.

Lemma answer_at_cap_is_replaced_witness :
  let r := run (fixture_env late_answer_fixture)
               (process_query demo_rt true orders_question) 0%nat in
  (exists before msgs,
      model_calls (trace_of r) = before ++ [(msgs, inr final_answer)]
      /\ length before = 7%nat)
  /\ success (value_of r) = true
  /\ run_iterations (value_of r) = 8%nat
  /\ response (value_of r)
     = String.concat ""
         ["I apologize, but I reached the maximum number of reasoning steps (8) while trying to answer your question. The tools I used were: ";
          join ", " (tools_used (value_of r));
          ". Please try rephrasing your question or making it more specific."].
Proof.
  cbn zeta.
  set (calls := model_calls
                  (trace_of (run (fixture_env late_answer_fixture)
                                 (process_query demo_rt true orders_question)
                                 0%nat))).
  assert (Hlast : calls
                  = removelast calls
                    ++ [(fst (last calls ([], inr final_answer)),
                         inr final_answer)])
    by (vm_compute; reflexivity).
  assert (Hlen : length (removelast calls) = 7%nat)
    by (vm_compute; reflexivity).
  split.
  - exists (removelast calls), (fst (last calls ([], inr final_answer))).
    split; assumption.
  - exact (answer_at_cap_is_replaced
             demo_rt true (fixture_env late_answer_fixture) 0%nat
             orders_question (removelast calls)
             (fst (last calls ([], inr final_answer))) final_answer
             Hlast eq_refl Hlen).
Defined.

(** The run of [late_answer_fixture], evaluated: eight turns, and the
    answer of the eighth is not what is returned. *)
Example late_answer_run :
  let res := value_of (run (fixture_env late_answer_fixture)
                           (process_query demo_rt true orders_question)
                           0%nat) in
  run_iterations res = 8%nat
  /\ length (tools_used res) = 7%nat
  /\ response res <> "There are 42 orders in the database.".
Proof.
  cbn zeta. split; [| split].
  - vm_compute. reflexivity.
  - vm_compute. reflexivity.
  - vm_compute. discriminate.
Qed.

(** C3.  [iterations] never exceeds the cap of 8; and against a model that
    asks for a tool on every turn the run ends with [iterations] = 8,
    [success] true, no error, and the response that says the cap was hit
    and lists the tools used. *)
Theorem iteration_cap rt ews env (w : World env) (q : string) :
  let res := value_of (run env (process_query rt ews q) w) in
  (run_iterations res <= 8)%nat
  /\ ((forall msgs (w0 : World env),
          exists ai, fst (handle env (LLMInvoke msgs) w0) = inr ai
                     /\ tool_calls ai <> []) ->
      run_iterations res = 8%nat
      /\ success res = true
      /\ error res = None
      /\ response res
         = String.concat ""
             ["I apologize, but I reached the maximum number of reasoning steps (8) while trying to answer your question. The tools I used were: ";
              join ", " (tools_used res);
              ". Please try rephrasing your question or making it more specific."]).
Proof.
  cbn zeta.
  destruct (run_process_query rt ews env w q) as (out & w' & Hloop & _ & Hval).
  rewrite Hval. split.
  - destruct (loop_run_iterations _ _ _ _ _ _ _ Hloop) as [_ Hle].
    specialize (Hle (Nat.le_0_l _)).
    destruct out as [st [e |]]; cbn [fst] in Hle.
    + exact Hle.
    + destruct (conclude_fields rt ews q st) as (-> & _). exact Hle.
  - intros Hmodel.
    destruct (loop_run_always_tools _ _ _ _ _ _ _ Hmodel Hloop (Nat.le_0_l _))
      as (Hexn & Hiter & _).
    destruct out as [st oe]. cbn [fst snd] in *. subst oe.
    rewrite (conclude_at_cap rt ews q st Hiter). simpl.
    repeat split. exact Hiter.
Qed.

Lemma iteration_cap_witness :
  (forall msgs (w0 : World (fixture_env always_tool_fixture)),
      exists ai,
        fst (handle (fixture_env always_tool_fixture) (LLMInvoke msgs) w0)
        = inr ai
        /\ tool_calls ai <> [])
  /\ let res := value_of (run (fixture_env always_tool_fixture)
                              (process_query demo_rt true orders_question)
                              0%nat) in
     run_iterations res = 8%nat
     /\ success res = true
     /\ error res = None
     /\ response res
        = String.concat ""
            ["I apologize, but I reached the maximum number of reasoning steps (8) while trying to answer your question. The tools I used were: ";
             join ", " (tools_used res);
             ". Please try rephrasing your question or making it more specific."].
Proof.
  assert (H : forall msgs (w0 : World (fixture_env always_tool_fixture)),
             exists ai,
               fst (handle (fixture_env always_tool_fixture)
                           (LLMInvoke msgs) w0) = inr ai
               /\ tool_calls ai <> []).
  { intros msgs w0. exists asks_tool. split; [reflexivity | discriminate]. }
  split; [exact H |].
  exact (proj2 (iteration_cap demo_rt true (fixture_env always_tool_fixture)
                              0%nat orders_question) H).
Defined.

(** C4.  [process_query] is a total function into [AgentRunResult]: no
    exception leaves it.  When a model call raises [e], the result has
    [success] false, [str(e)] in [error] and in [response] the apology
    text: the question in quotes after "I encountered an error while
    processing your question: ", then "Error: " and [str(e)], then the
    request to rephrase, each part after an empty line.  Every result with
    [success] false has that shape for some message, while one with
    [success] true has no error. *)
Theorem process_query_never_raises rt ews env (w : World env) (q : string) :
  let r := run env (process_query rt ews q) w in
  let res := value_of r in
  let apology msg :=
    String.concat ""
      ["I encountered an error while processing your question: ";
       String "034" ""; q; String "034" "";
       String "010" ""; String "010" "";
       "Error: "; msg;
       String "010" ""; String "010" "";
       "Please try rephrasing your question or make it more specific."] in
  (forall msgs e,
      In (msgs, inl e) (model_calls (trace_of r)) ->
      success res = false
      /\ error res = Some (exn_msg e)
      /\ response res = apology (exn_msg e))
  /\ (success res = false ->
      exists msg, error res = Some msg /\ response res = apology msg)
  /\ (success res = true -> error res = None).
Proof.
  cbn zeta.
  destruct (run_process_query rt ews env w q) as (out & w' & Hloop & _ & Hval).
  rewrite Hval.
  destruct (loop_run_raise _ _ _ _ _ _ _ Hloop) as [Hraise _].
  split; [| split].
  - intros msgs e Hin. specialize (Hraise msgs e Hin).
    destruct out as [st oe]. cbn [snd] in Hraise. subst oe.
    repeat split.
  - destruct out as [st [e |]].
    + intros _. exists (exn_msg e). split; reflexivity.
    + apply conclude_fields.
  - destruct out as [st [e |]].
    + discriminate.
    + apply conclude_fields.
Qed.

Lemma process_query_never_raises_witness :
  let r := run (fixture_env failing_model_fixture)
               (process_query demo_rt true orders_question) 0%nat in
  (exists msgs,
      In (msgs, inl (Exn OtherError "503 Service Unavailable"))
         (model_calls (trace_of r)))
  /\ success (value_of r) = false
  /\ error (value_of r) = Some "503 Service Unavailable"
  /\ response (value_of r)
     = String.concat ""
         ["I encountered an error while processing your question: ";
          String "034" ""; orders_question; String "034" "";
          String "010" ""; String "010" "";
          "Error: "; "503 Service Unavailable";
          String "010" ""; String "010" "";
          "Please try rephrasing your question or make it more specific."].
Proof.
  cbn zeta.
  set (r := run (fixture_env failing_model_fixture)
                (process_query demo_rt true orders_question) 0%nat).
  assert (H : In (fst (last (model_calls (trace_of r)) ([], inr asks_tool)),
                  inl (Exn OtherError "503 Service Unavailable"))
                 (model_calls (trace_of r))).
  { vm_compute. right. left. reflexivity. }
  split; [eexists; exact H |].
  exact (proj1 (process_query_never_raises
                  demo_rt true (fixture_env failing_model_fixture) 0%nat
                  orders_question) _ _ H).
Defined.

(** C8.  In the run of the loop of [process_query]: every model call is
    sent the conversation as it stands, and what is appended between one
    model call and the next is the model's message followed by one
    [ToolMessage] per tool call of that message, in the order of the calls
    and under their ids, the one of an unknown tool name reading
    [Unknown Tool] ([dialogue], [observed]); the same holds for the last
    turn, up to the conversation the loop ends with.  [tools_used] is the
    list of the names of all these calls, in order. *)
Theorem tool_calls_are_observed rt ews env (w : World env) (q : string) :
  let r := run env (agent_loop rt max_iterations (initial_state rt ews q)) w in
  let st' := fst (value_of r) in
  dialogue (messages (initial_state rt ews q))
           (model_calls (trace_of r))
           (messages st')
  /\ tool_calls_made st'
     = flat_map (fun ai => map tc_name (tool_calls ai))
                (model_replies (trace_of r))
  /\ tools_used (value_of (run env (process_query rt ews q) w))
     = tool_calls_made st'.
Proof.
  cbn zeta.
  destruct (run_process_query rt ews env w q)
    as (out & w' & Hloop & Hrun & Hval).
  rewrite Hval, Hrun. unfold value_of, trace_of. cbn [fst snd].
  destruct (loop_run_dialogue _ _ _ _ _ _ _ Hloop) as [Hd Hmade].
  split; [exact Hd |]. split; [exact Hmade |].
  destruct out as [st [e |]]; cbn [fst].
  - reflexivity.
  - apply conclude_fields.
Qed.

(** A turn with a tool name the dispatcher does not know: the observation
    is the literal text, the name is recorded, and the loop goes on. *)
Example unknown_tool_is_observed :
  let unknown := {| tc_name := "drop_database"; tc_args := [];
                    tc_id := "call_7" |} in
  let st := initial_state demo_rt true orders_question in
  run (fixture_env store_fixture) (act demo_rt [unknown] st) 0%nat
  = ({| messages := messages st ++ [ToolMessage "Unknown Tool" "call_7"];
        final_response := final_response st;
        iterations := iterations st;
        tool_calls_made := ["drop_database"];
        total_input_tokens := 0;
        total_output_tokens := 0 |}, 0%nat, []).
Proof. reflexivity. Qed.

(** C10.  In every result of [process_query], of either outcome,
    [total_token_count] is the sum of [input_token_count] and
    [output_token_count], and these two are the sums, over the messages the
    model answered with during the run, of what each adds
    ([token_delta]). *)
Theorem token_totals rt ews env (w : World env) (q : string) :
  let r := run env (process_query rt ews q) w in
  let tc := token_count (value_of r) in
  total_token_count tc = (input_token_count tc + output_token_count tc)%Z
  /\ input_token_count tc
     = sum_Z (map (fun ai => fst (token_delta ai))
                  (model_replies (trace_of r)))
  /\ output_token_count tc
     = sum_Z (map (fun ai => snd (token_delta ai))
                  (model_replies (trace_of r))).
Proof.
  cbn zeta.
  destruct (run_process_query rt ews env w q) as (out & w' & Hloop & _ & Hval).
  rewrite Hval.
  destruct (loop_run_tokens _ _ _ _ _ _ _ Hloop) as [Hin Hout].
  cbn [initial_state total_input_tokens total_output_tokens] in Hin, Hout.
  assert (Htc : token_count
                  match out with
                  | (st, Some e) => failure_result ews q st e
                  | (st, None) => conclude rt ews q st
                  end = token_count_of (fst out)).
  { destruct out as [st [e |]]; cbn [fst].
    - reflexivity.
    - apply conclude_fields. }
  rewrite Htc. unfold token_count_of.
  cbn [total_token_count input_token_count output_token_count].
  rewrite Hin, Hout. repeat split; lia.
Qed.

(** The counters of the run of [late_answer_fixture]: seven messages in the
    OpenAI shape and one in the Gemini shape. *)
Example late_answer_tokens :
  token_count (value_of (run (fixture_env late_answer_fixture)
                             (process_query demo_rt true orders_question)
                             0%nat))
  = {| input_token_count := 1140;
       output_token_count := 117;
       total_token_count := 1257 |}.
Proof. vm_compute. reflexivity. Qed.

(** * Further properties *)

(** ** Query validation *)

Lemma stage_allowed_harmless (stage : json) :
  stage_allowed stage = true <-> harmless_stage stage.
Proof.
  unfold harmless_stage. destruct stage; cbn [stage_allowed];
    try (split; [discriminate | intros (d & Hd & _); discriminate]).
  rewrite negb_true_iff. split.
  - intros Hnone. eexists. split; [reflexivity |].
    intros stage_name Hkey Hbad.
    assert (Hex : existsb
                    (fun name => existsb (String.eqb name) destructive_stages)
                    (dict_keys fields) = true).
    { apply existsb_exists. exists stage_name. split; [exact Hkey |].
      apply existsb_exists. exists stage_name. split; [exact Hbad |].
      apply String.eqb_refl. }
    congruence.
  - intros (d & Hd & Hall). injection Hd as <-.
    apply not_true_is_false. intros Hex.
    apply existsb_exists in Hex. destruct Hex as (name & Hkey & Hbad).
    apply existsb_exists in Hbad. destruct Hbad as (bad & Hin & Heq).
    apply String.eqb_eq in Heq. subst bad.
    exact (Hall name Hkey Hin).
Qed.

Lemma is_str_true (v : json) (s : string) :
  is_str v s = true <-> v = JStr s.
Proof.
  destruct v; simpl; try (split; discriminate).
  rewrite String.eqb_eq. split; congruence.
Qed.

Lemma validate_aggregate_accepts (q : list (string * json)) :
  fst (validate_query (JStr "aggregate") (JDict q)) = true ->
  exists stages,
    dict_get q "pipeline" = Some (JList stages)
    /\ stages <> []
    /\ Forall harmless_stage stages.
Proof.
  unfold validate_query.
  change (is_str (JStr "aggregate") "find") with false.
  change (is_str (JStr "aggregate") "aggregate") with true.
  cbv iota.
  destruct (dict_get q "pipeline") as [[ | b | n | s | stages | d ] | ];
    try discriminate.
  destruct stages as [| stage stages]; [discriminate |].
  cbn [length Nat.eqb fst]. intros Hall.
  eexists. split; [reflexivity |]. split; [discriminate |].
  rewrite forallb_forall in Hall. apply Forall_forall.
  intros s Hs. apply stage_allowed_harmless. exact (Hall s Hs).
Qed.

Lemma validate_aggregate_unchanged (q : list (string * json)) :
  snd (validate_query (JStr "aggregate") (JDict q)) = JDict q.
Proof.
  unfold validate_query.
  change (is_str (JStr "aggregate") "find") with false.
  change (is_str (JStr "aggregate") "aggregate") with true.
  cbv iota.
  destruct (dict_get q "pipeline") as [[ | b | n | s | stages | d ] | ];
    try reflexivity.
  destruct (length stages =? 0)%nat; reflexivity.
Qed.

(** X1.  [validate_query] accepts an aggregate query exactly when its
    [pipeline] is a list that is not empty and whose stages are all dicts
    without a [$out] or [$merge] key; it never changes an aggregate
    query. *)
Theorem validate_aggregate_iff (q : list (string * json)) :
  (fst (validate_query (JStr "aggregate") (JDict q)) = true <->
   exists stages,
     dict_get q "pipeline" = Some (JList stages)
     /\ stages <> []
     /\ Forall harmless_stage stages)
  /\ snd (validate_query (JStr "aggregate") (JDict q)) = JDict q.
Proof.
  split; [| apply validate_aggregate_unchanged].
  split; [apply validate_aggregate_accepts |].
  intros (stages & Hpipe & Hne & Hall).
  unfold validate_query.
  change (is_str (JStr "aggregate") "find") with false.
  change (is_str (JStr "aggregate") "aggregate") with true.
  cbv iota. rewrite Hpipe.
  destruct stages as [| stage stages]; [congruence |].
  cbn [length Nat.eqb fst].
  apply forallb_forall. rewrite Forall_forall in Hall.
  intros s Hs. apply stage_allowed_harmless. exact (Hall s Hs).
Qed.

Lemma validate_aggregate_iff_witness :
  (exists stages,
      dict_get group_query "pipeline" = Some (JList stages)
      /\ stages <> [] /\ Forall harmless_stage stages)
  /\ fst (validate_query (JStr "aggregate") (JDict group_query)) = true.
Proof.
  assert (H : exists stages,
             dict_get group_query "pipeline" = Some (JList stages)
             /\ stages <> [] /\ Forall harmless_stage stages).
  { exists group_stages. split; [reflexivity |]. split; [discriminate |].
    repeat constructor. eexists. split; [reflexivity |].
    intros name [<- | []] [Hbad | [Hbad | []]]; discriminate. }
  split; [exact H |].
  exact (proj2 (proj1 (validate_aggregate_iff group_query)) H).
Defined.

Lemma validate_find_accepts (q : list (string * json)) :
  fst (validate_query (JStr "find") (JDict q)) = true ->
  exists f, dict_get q "filter" = Some (JDict f).
Proof.
  unfold validate_query.
  change (is_str (JStr "find") "find") with true.
  cbv iota.
  destruct (dict_get q "filter") as [[ | b | n | s | l | f ] | ];
    try discriminate.
  eauto.
Qed.

(** X2.  [validate_query] accepts a [find] query exactly when its [filter]
    is a dict; a [limit] the query carries is kept as it is, whatever its
    value (it is not compared with [MAX_QUERY_RESULTS]). *)
Theorem validate_find_iff (q : list (string * json)) :
  (fst (validate_query (JStr "find") (JDict q)) = true <->
   exists f, dict_get q "filter" = Some (JDict f))
  /\ (forall limit,
         dict_get q "limit" = Some limit ->
         snd (validate_query (JStr "find") (JDict q)) = JDict q).
Proof.
  split.
  - split; [apply validate_find_accepts |].
    intros (f & Hf). unfold validate_query.
    change (is_str (JStr "find") "find") with true.
    cbv iota. rewrite Hf.
    destruct (dict_mem q "limit"); reflexivity.
  - intros limit Hlimit. unfold validate_query.
    change (is_str (JStr "find") "find") with true.
    cbv iota. unfold dict_mem. rewrite Hlimit.
    destruct (dict_get q "filter") as [[ | b | n | s | l | f ] | ];
      reflexivity.
Qed.

Lemma validate_find_iff_witness :
  (exists f, dict_get wide_query "filter" = Some (JDict f))
  /\ dict_get wide_query "limit" = Some (JNum 5000)
  /\ validate_query (JStr "find") (JDict wide_query)
     = (true, JDict wide_query).
Proof.
  assert (H : exists f, dict_get wide_query "filter" = Some (JDict f))
    by (eexists; reflexivity).
  split; [exact H |]. split; [reflexivity |].
  destruct (validate_find_iff wide_query) as [Hiff Hkeep].
  rewrite (surjective_pairing (validate_query _ _)).
  rewrite (proj2 Hiff H), (Hkeep (JNum 5000) eq_refl). reflexivity.
Defined.

(** What [validate_query] returns when it accepts: the query itself, or,
    for a [find] query without a limit, the query with the default limit
    added at its end. *)
Lemma validate_accepted_query (query_type query query' : json) :
  validate_query query_type query = (true, query') ->
  query' = query
  \/ exists q,
       query = JDict q
       /\ is_str query_type "find" = true
       /\ dict_mem q "limit" = false
       /\ query' = JDict (dict_set q "limit" (JNum MAX_QUERY_RESULTS)).
Proof.
  intros Hvalid.
  destruct query as [ | b | n | s | l | q ]; try discriminate.
  unfold validate_query in Hvalid.
  destruct (is_str query_type "find") eqn:Hfind.
  - destruct (dict_get q "filter") as [[ | b | n | s | l | f ] | ];
      try discriminate.
    destruct (dict_mem q "limit") eqn:Hl; injection Hvalid as <-.
    + now left.
    + right. exists q. repeat split; assumption.
  - destruct (is_str query_type "aggregate"); [| discriminate].
    destruct (dict_get q "pipeline") as [[ | b | n | s | stages | d ] | ];
      try discriminate.
    destruct (length stages =? 0)%nat; [discriminate |].
    injection Hvalid as _ <-. now left.
Qed.

Lemma validate_with_limit (q : list (string * json)) :
  fst (validate_query (JStr "find") (JDict q)) = true ->
  dict_mem q "limit" = true ->
  validate_query (JStr "find") (JDict q) = (true, JDict q).
Proof.
  intros Hok Hlimit. destruct (validate_find_accepts q Hok) as [f Hf].
  unfold validate_query.
  change (is_str (JStr "find") "find") with true.
  cbv iota. rewrite Hf, Hlimit. reflexivity.
Qed.

(** X3.  Validating again what [validate_query] accepted and returned
    accepts it again and changes nothing. *)
Theorem validate_query_idempotent (query_type query query' : json) :
  validate_query query_type query = (true, query') ->
  validate_query query_type query' = (true, query').
Proof.
  intros Hvalid.
  destruct (validate_accepted_query _ _ _ Hvalid)
    as [-> | (q & -> & Hfind & Hl & ->)]; [exact Hvalid |].
  apply is_str_true in Hfind. subst query_type.
  apply validate_with_limit.
  - unfold validate_query in Hvalid |- *.
    change (is_str (JStr "find") "find") with true in Hvalid |- *.
    cbv iota in Hvalid |- *.
    rewrite dict_get_set_other by discriminate.
    destruct (dict_get q "filter") as [[ | b | n | s | l | f ] | ];
      try discriminate.
    unfold dict_mem. rewrite dict_get_set_same. reflexivity.
  - unfold dict_mem. now rewrite dict_get_set_same.
Qed.

Lemma validate_query_idempotent_witness :
  validate_query (JStr "find") (JDict find_query)
  = (true, JDict (find_query ++ [("limit", JNum 100)]))
  /\ validate_query (JStr "find")
                    (JDict (find_query ++ [("limit", JNum 100)]))
     = (true, JDict (find_query ++ [("limit", JNum 100)])).
Proof.
  split; [reflexivity |].
  exact (validate_query_idempotent (JStr "find") (JDict find_query) _ eq_refl).
Defined.

(** ** The translator *)

Lemma validate_find_output (query query' : json) :
  validate_query (JStr "find") query = (true, query') ->
  exists q f limit,
    query' = JDict q
    /\ dict_get q "filter" = Some (JDict f)
    /\ dict_get q "limit" = Some limit.
Proof.
  intros Hvalid.
  destruct query as [ | b | n | s | l | q ]; try discriminate.
  unfold validate_query in Hvalid.
  change (is_str (JStr "find") "find") with true in Hvalid.
  cbv iota in Hvalid.
  destruct (dict_get q "filter") as [[ | b | n | s | l | f ] | ] eqn:Hf;
    try discriminate.
  unfold dict_mem in Hvalid.
  destruct (dict_get q "limit") as [limit |] eqn:Hl;
    injection Hvalid as <-.
  - exists q, f, limit. repeat split; assumption.
  - eexists. exists f. eexists. split; [reflexivity |]. split.
    + rewrite dict_get_set_other by discriminate. exact Hf.
    + apply dict_get_set_same.
Qed.

Lemma validate_aggregate_output (query query' : json) :
  validate_query (JStr "aggregate") query = (true, query') ->
  exists q stages,
    query' = JDict q
    /\ dict_get q "pipeline" = Some (JList stages)
    /\ stages <> []
    /\ Forall harmless_stage stages.
Proof.
  intros Hvalid.
  destruct query as [ | b | n | s | l | q ]; try discriminate.
  pose proof (validate_aggregate_unchanged q) as Hsame.
  rewrite Hvalid in Hsame. cbn [snd] in Hsame. subst query'.
  destruct (validate_aggregate_accepts q) as (stages & Hp & Hne & Hall);
    [now rewrite Hvalid |].
  exists q, stages. repeat split; assumption.
Qed.

Lemma translate_reply_validated rt (text : string) (res : json) :
  translate_reply rt text = inr res ->
  exists query_type query0 query explanation,
    res = JDict [("query_type", query_type); ("query", query);
                 ("explanation", explanation)]
    /\ validate_query query_type query0 = (true, query)
    /\ (query_type = JStr "find" \/ query_type = JStr "aggregate").
Proof.
  unfold translate_reply, rbind.
  destruct (json_loads rt text) as [m | parsed]; [discriminate |].
  destruct (_validate_response_format parsed) as [e | ok] eqn:Hformat;
    [discriminate |].
  destruct ok; [| discriminate]. cbn [negb].
  destruct (py_getitem parsed "query_type") as [e | query_type] eqn:Htype;
    [discriminate |].
  destruct (py_getitem parsed "query") as [e | query]; [discriminate |].
  destruct (validate_query query_type query) as [valid query'] eqn:Hvalid.
  destruct valid; [| discriminate]. cbn [negb].
  intros H. injection H as <-.
  exists query_type, query, query'. eexists.
  split; [reflexivity |]. split; [exact Hvalid |].
  unfold _validate_response_format, rbind in Hformat.
  destruct (py_contains "query_type" parsed) as [e | [|]];
    try discriminate.
  destruct (py_contains "query" parsed) as [e | [|]]; try discriminate.
  cbn [negb] in Hformat. rewrite Htype in Hformat.
  destruct (is_str query_type "find") eqn:Hfind.
  - left. now apply is_str_true.
  - destruct (is_str query_type "aggregate") eqn:Hagg.
    + right. now apply is_str_true.
    + discriminate.
Qed.

(** X4.  What [translate] returns, when it returns: a dict with
    [query_type], [query] and [explanation], where the kind is [find] or
    [aggregate]; a [find] query has a dict [filter] and a [limit], an
    aggregate query a non-empty pipeline of dict stages without [$out] or
    [$merge].  The translator makes one model call and never touches the
    store. *)
Theorem translate_returns_validated
        rt env (w : World env) (user_query res : json) w' tr :
  run env (translate rt user_query) w = (inr res, w', tr) ->
  map occ_event tr = [TranslatorInvoke user_query]
  /\ exists query_type query explanation,
       res = JDict [("query_type", query_type); ("query", query);
                    ("explanation", explanation)]
       /\ ((query_type = JStr "find"
            /\ exists q f limit,
                 query = JDict q
                 /\ dict_get q "filter" = Some (JDict f)
                 /\ dict_get q "limit" = Some limit)
           \/ (query_type = JStr "aggregate"
               /\ exists q stages,
                    query = JDict q
                    /\ dict_get q "pipeline" = Some (JList stages)
                    /\ stages <> []
                    /\ Forall harmless_stage stages)).
Proof.
  unfold translate, ebind, pure. simpl.
  destruct (handle env (TranslatorInvoke user_query) w) as [r w1].
  destruct r as [e | text]; simpl.
  - destruct e as [[] m]; discriminate.
  - destruct (translate_reply rt text) as [e | res'] eqn:Hreply; simpl.
    + destruct e as [[] m]; discriminate.
    + intros H. injection H as <- <- <-. split; [reflexivity |].
      destruct (translate_reply_validated rt text res' Hreply)
        as (query_type & query0 & query & explanation & Hres & Hvalid & Hkind).
      exists query_type, query, explanation.
      split; [exact Hres |].
      destruct Hkind as [-> | ->].
      * left. split; [reflexivity |].
        exact (validate_find_output _ _ Hvalid).
      * right. split; [reflexivity |].
        exact (validate_aggregate_output _ _ Hvalid).
Qed.

Lemma translate_returns_validated_witness :
  exists res w' tr,
    run (fixture_env find_translator_fixture)
        (translate demo_rt (JStr orders_question)) 0%nat
    = (inr res, w', tr)
    /\ map occ_event tr = [TranslatorInvoke (JStr orders_question)]
    /\ exists query_type query explanation,
         res = JDict [("query_type", query_type); ("query", query);
                      ("explanation", explanation)]
         /\ ((query_type = JStr "find"
              /\ exists q f limit,
                   query = JDict q
                   /\ dict_get q "filter" = Some (JDict f)
                   /\ dict_get q "limit" = Some limit)
             \/ (query_type = JStr "aggregate"
                 /\ exists q stages,
                      query = JDict q
                      /\ dict_get q "pipeline" = Some (JList stages)
                      /\ stages <> []
                      /\ Forall harmless_stage stages)).
Proof.
  eexists. eexists. eexists.
  split; [vm_compute; reflexivity |].
  eapply (translate_returns_validated
            demo_rt (fixture_env find_translator_fixture) 0%nat).
  vm_compute. reflexivity.
Defined.

(** X5.  The translate tool refuses a destructive pipeline: when the model's
    reply decodes to an aggregate query with a stage that holds [$out] or
    [$merge], the tool's output is the error dict saying the generated
    query failed validation, and nothing but the translator's model was
    called. *)
Theorem translate_tool_refuses_destructive
        rt env (w w1 : World env) (user_question : json) (text : string)
        (parsed q d : list (string * json)) (stages : list json)
        (stage_name : string) :
  handle env (TranslatorInvoke user_question) w = (inr text, w1) ->
  json_loads rt text = inr (JDict parsed) ->
  dict_get parsed "query_type" = Some (JStr "aggregate") ->
  dict_get parsed "query" = Some (JDict q) ->
  dict_get q "pipeline" = Some (JList stages) ->
  In (JDict d) stages ->
  In stage_name (dict_keys d) ->
  In stage_name destructive_stages ->
  run env (_tool_translate_query rt user_question) w
  = (json_dumps rt
       (JDict [("error",
                JStr (String.append "Generated query failed validation: "
                                    (py_str rt (JDict q))))]),
     w1,
     [existT Resp (TranslatorInvoke user_question) (inr text)]).
Proof.
  intros Hh Hloads Htype Hquery Hpipe Hstage Hkey Hbad.
  pose proof (validate_rejects_destructive q stages d stage_name
                Hpipe Hstage Hkey Hbad) as Hreject.
  pose proof (validate_aggregate_unchanged q) as Hsame.
  assert (Hv : validate_query (JStr "aggregate") (JDict q)
               = (false, JDict q)).
  { rewrite (surjective_pairing (validate_query _ _)).
    now rewrite Hreject, Hsame. }
  assert (Hreply : translate_reply rt text
                   = raise ValueError
                       (String.append "Generated query failed validation: "
                                      (py_str rt (JDict q)))).
  { unfold translate_reply. rewrite Hloads.
    unfold _validate_response_format, rbind.
    cbn [py_contains py_getitem]. unfold dict_mem.
    rewrite Htype, Hquery. cbn [negb].
    change (is_str (JStr "aggregate") "find") with false.
    change (is_str (JStr "aggregate") "aggregate") with true.
    cbn [orb negb]. rewrite Hv. reflexivity. }
  unfold _tool_translate_query, translate, ebind, pure.
  cbn [pbind call run]. rewrite Hh. cbn [pbind run].
  rewrite Hreply. reflexivity.
Qed.

Lemma translate_tool_refuses_destructive_witness :
  run (fixture_env out_translator_fixture)
      (_tool_translate_query demo_rt (JStr orders_question)) 0%nat
  = (json_dumps demo_rt
       (JDict [("error",
                JStr (String.append "Generated query failed validation: "
                                    (py_str demo_rt (JDict out_query))))]),
     0%nat,
     [existT Resp (TranslatorInvoke (JStr orders_question)) (inr out_text)]).
Proof.
  refine (translate_tool_refuses_destructive
            demo_rt (fixture_env out_translator_fixture) 0%nat 0%nat
            (JStr orders_question) out_text out_data out_query
            [("$out", JStr "purchase_orders")] out_stages "$out"
            eq_refl eq_refl eq_refl eq_refl eq_refl _ _ _).
  - right. left. reflexivity.
  - left. reflexivity.
  - left. reflexivity.
Defined.

(** ** The executor: wrapping, explicit bounds, shallow normalisation *)

(** X11.  A pipeline passed as a bare list under [query] is run exactly as the
    same pipeline under [{pipeline: ...}]. *)
Theorem bare_pipeline_is_wrapped
        rt env (w : World env) (s1 s2 : string)
        (data1 data2 : list (string * json)) (stages : list json) :
  json_loads rt s1 = inr (JDict data1) ->
  dict_get data1 "query_type" = Some (JStr "aggregate") ->
  dict_get data1 "query" = Some (JList stages) ->
  json_loads rt s2 = inr (JDict data2) ->
  dict_get data2 "query_type" = Some (JStr "aggregate") ->
  dict_get data2 "query" = Some (JDict [("pipeline", JList stages)]) ->
  run env (_tool_execute_query rt (JStr s1)) w
  = run env (_tool_execute_query rt (JStr s2)) w.
Proof.
  intros Hl1 Ht1 Hq1 Hl2 Ht2 Hq2.
  rewrite (tool_execute_object rt s1 data1 _ Hl1 Ht1).
  rewrite (tool_execute_object rt s2 data2 _ Hl2 Ht2).
  rewrite (execute_data_object rt data1 _ _ Ht1 Hq1).
  rewrite (execute_data_object rt data2 _ _ Ht2 Hq2).
  reflexivity.
Qed.

Lemma bare_pipeline_is_wrapped_witness :
  run (fixture_env store_fixture)
      (_tool_execute_query demo_rt2 (JStr bare_text)) 0%nat
  = run (fixture_env store_fixture)
        (_tool_execute_query demo_rt2 (JStr group_text)) 0%nat.
Proof.
  exact (bare_pipeline_is_wrapped
           demo_rt2 (fixture_env store_fixture) 0%nat
           bare_text group_text bare_data group_data group_stages
           eq_refl eq_refl eq_refl eq_refl eq_refl eq_refl).
Defined.

Lemma any_contains_dicts (k : string) (stages : list json) :
  Forall (fun stage => is_dict stage = true) stages ->
  any_contains k stages = inr (existsb (stage_has k) stages).
Proof.
  induction 1 as [| stage stages Hd _ IH]; [reflexivity |].
  destruct stage; try discriminate.
  cbn [any_contains py_contains existsb stage_has].
  destruct (dict_mem fields k); [reflexivity | exact IH].
Qed.

(** X12.  Bounds the query brings are passed on as they are: a pipeline of dict
    stages one of which holds [$limit] or [$count] goes to the store
    unchanged, and a [find] query's own [limit] is the limit of the store
    call, whatever its value. *)
Theorem explicit_bounds_pass_through :
  (forall rt env (w : World env) s data q stages,
      json_loads rt s = inr (JDict data) ->
      dict_get data "query_type" = Some (JStr "aggregate") ->
      dict_get data "query" = Some (JDict q) ->
      dict_get q "pipeline" = Some (JList stages) ->
      Forall (fun stage => is_dict stage = true) stages ->
      existsb (stage_has "$limit") stages
      || existsb (stage_has "$count") stages = true ->
      events_of (run env (_tool_execute_query rt (JStr s)) w)
      = [CollAggregate (JList stages)
                       (Some (QUERY_TIMEOUT_SECONDS * 1000)%Z)])
  /\ (forall rt env (w : World env) s data q limit,
         json_loads rt s = inr (JDict data) ->
         dict_get data "query_type" = Some (JStr "find") ->
         dict_get data "query" = Some (JDict q) ->
         dict_get q "limit" = Some limit ->
         exists filter_dict,
           events_of (run env (_tool_execute_query rt (JStr s)) w)
           = [CollFind filter_dict limit None]).
Proof.
  split.
  - intros rt env w s data q stages Hloads Htype Hquery Hpipe Hdicts Hbound.
    apply (execute_aggregate_events rt env w s data q _ Hloads Htype Hquery).
    unfold dict_get_default. rewrite Hpipe.
    unfold with_default_limit, rbind. cbn [py_iter].
    rewrite !(any_contains_dicts _ _ Hdicts).
    destruct (existsb (stage_has "$limit") stages); [reflexivity |].
    cbn [orb] in Hbound. rewrite Hbound. reflexivity.
  - intros rt env w s data q limit Hloads Htype Hquery Hlimit.
    eexists.
    rewrite (execute_find_events rt env w s data q Hloads Htype Hquery).
    unfold dict_get_default at 2. rewrite Hlimit. reflexivity.
Qed.

Lemma explicit_bounds_pass_through_witness :
  events_of (run (fixture_env store_fixture)
                 (_tool_execute_query demo_rt2 (JStr out_text)) 0%nat)
  = [CollAggregate (JList out_stages) (Some (QUERY_TIMEOUT_SECONDS * 1000)%Z)]
  /\ exists filter_dict,
       events_of (run (fixture_env store_fixture)
                      (_tool_execute_query demo_rt2 (JStr wide_text)) 0%nat)
       = [CollFind filter_dict (JNum 5000) None].
Proof.
  destruct explicit_bounds_pass_through as [Hagg Hfind].
  split.
  - refine (Hagg demo_rt2 (fixture_env store_fixture) 0%nat
                 out_text out_data out_query out_stages
                 eq_refl eq_refl eq_refl eq_refl _ eq_refl).
    repeat constructor.
  - exact (Hfind demo_rt2 (fixture_env store_fixture) 0%nat
                 wide_text wide_data wide_query (JNum 5000)
                 eq_refl eq_refl eq_refl eq_refl).
Defined.

Lemma to_json_dict (d : list (string * pyval)) :
  to_json (PDict d) = option_map JDict (fields_to_json d).
Proof.
  reflexivity.
Qed.

Lemma fields_to_json_safe (d : doc) :
  transport_safe d ->
  exists js, fields_to_json (serialize_fields d) = Some js
             /\ map fst js = map fst d.
Proof.
  induction 1 as [| [k v] d Hv _ (js & Hjs & Hkeys)].
  - exists []. split; reflexivity.
  - cbn [serialize_fields map fields_to_json fst snd] in *.
    destruct (to_json (serialize_value v)) as [j |]; [| congruence].
    fold (serialize_fields d). rewrite Hjs.
    exists ((k, j) :: js). split; [reflexivity |].
    cbn [map fst]. now rewrite Hkeys.
Qed.

Lemma fields_to_json_nested (d : doc) :
  holds_nested_handle d -> fields_to_json (serialize_fields d) = None.
Proof.
  induction 1 as [[k v] d Hv | [k v] d _ IH];
    cbn [serialize_fields map fields_to_json fst snd] in *.
  - rewrite Hv. reflexivity.
  - fold (serialize_fields d). rewrite IH.
    destruct (to_json (serialize_value v)); reflexivity.
Qed.

Lemma docs_to_json_safe (docs : list doc) :
  Forall (fun d => NoDup (dict_keys d)) docs ->
  Forall transport_safe docs ->
  exists js, docs_to_json (_serialize_results docs) = Some js
             /\ length js = length docs.
Proof.
  intros Hnd Hsafe. induction Hsafe as [| d docs Hd _ IH].
  - exists []. split; reflexivity.
  - inversion Hnd as [| ? ? Hd_nd Hrest]; subst.
    destruct (IH Hrest) as (js & Hjs & Hlen).
    destruct (fields_to_json_safe d Hd) as (j & Hj & _).
    unfold _serialize_results in *. cbn [map docs_to_json].
    rewrite to_json_dict, (serialize_doc_nodup d Hd_nd), Hj, Hjs.
    exists (JDict j :: js). split; [reflexivity |].
    cbn [length]. now rewrite Hlen.
Qed.

Lemma docs_to_json_nested (docs : list doc) :
  Forall (fun d => NoDup (dict_keys d)) docs ->
  Exists holds_nested_handle docs ->
  docs_to_json (_serialize_results docs) = None.
Proof.
  intros Hnd Hbad. induction Hbad as [d docs Hd | d docs _ IH];
    inversion Hnd as [| ? ? Hd_nd Hrest]; subst;
    unfold _serialize_results in *; cbn [map docs_to_json];
    rewrite to_json_dict, (serialize_doc_nodup d Hd_nd).
  - rewrite (fields_to_json_nested d Hd). reflexivity.
  - rewrite (IH Hrest).
    destruct (option_map JDict (fields_to_json (serialize_fields d)));
      reflexivity.
Qed.

(** X14.  Normalisation is shallow.  When the store answers a query with
    documents, the executor returns the success result, with [count] the
    number of documents, provided every value is free of driver handles
    once the top level is normalised; one [ObjectId] or [datetime] left
    inside a sub-document or a list turns the whole answer into an error
    result. *)
Theorem normalisation_is_shallow
        rt env (w : World env) (query_json : json) (o : Occ)
        (docs : list doc) :
  let r := run env (_tool_execute_query rt query_json) w in
  trace_of r = [o] ->
  store_answer o = Some (inr docs) ->
  Forall (fun d => NoDup (dict_keys d)) docs ->
  (Forall transport_safe docs ->
   exists js,
     length js = length docs
     /\ value_of r
        = json_dumps rt
            (JDict [("success", JBool true); ("results", JList js);
                    ("count", JNum (Z.of_nat (length docs)))]))
  /\ (Exists holds_nested_handle docs ->
      exists msg, value_of r = json_dumps rt (error_result msg)).
Proof.
  cbn zeta. intros Htrace Hanswer Hnd.
  pose proof (executor_outcome_of_try rt env query_json w) as Hout.
  cbn zeta in Hout. unfold executor_outcome in Hout.
  rewrite Htrace, Hanswer in Hout.
  split.
  - intros Hsafe.
    destruct (docs_to_json_safe docs Hnd Hsafe) as (js & Hjs & Hlen).
    rewrite Hjs in Hout. exists js. split; [exact Hlen |].
    rewrite Hout. unfold success_result. now rewrite Hlen.
  - intros Hbad.
    rewrite (docs_to_json_nested docs Hnd Hbad) in Hout. exact Hout.
Qed.

Lemma normalisation_is_shallow_witness :
  (exists js,
      length js = length sample_records
      /\ value_of (run (fixture_env store_fixture)
                       (_tool_execute_query demo_rt (JStr find_text)) 0%nat)
         = json_dumps demo_rt
             (JDict [("success", JBool true); ("results", JList js);
                     ("count", JNum (Z.of_nat (length sample_records)))]))
  /\ exists msg,
       value_of (run (fixture_env nested_store_fixture)
                     (_tool_execute_query demo_rt (JStr group_text)) 0%nat)
       = json_dumps demo_rt (error_result msg).
Proof.
  split.
  - refine (proj1 (normalisation_is_shallow
                     demo_rt (fixture_env store_fixture) 0%nat
                     (JStr find_text)
                     (existT Resp
                        (CollFind (JDict [("fiscal_year", JStr "2013-2014")])
                                  (JNum 100) None)
                        (inr sample_records))
                     sample_records eq_refl eq_refl _) _).
    + repeat constructor; simpl; intuition discriminate.
    + repeat constructor; discriminate.
  - refine (proj2 (normalisation_is_shallow
                     demo_rt (fixture_env nested_store_fixture) 0%nat
                     (JStr group_text)
                     (existT Resp
                        (CollAggregate
                           (JList (group_stages ++ [default_limit_stage]))
                           (Some 30000%Z))
                        (inr nested_records))
                     nested_records eq_refl eq_refl _) _).
    + repeat constructor; simpl; intuition discriminate.
    + left. left. reflexivity.
Defined.

(** ** The loop: counting, tools, answers *)

Lemma loop_run_count rt env st (w : World env) out w' tr :
  loop_run rt env st w out w' tr ->
  iterations (fst out) = (iterations st + length (model_calls tr))%nat.
Proof.
  induction 1 as
    [ st w Hge
    | st w w1 e Hlt Hh
    | st w w1 ai Hlt Hh Hcalls
    | st w w1 ai st2 w2 tr2 out w3 tr3 Hlt Hh Hcalls Hact Hrest IH ];
    try (simpl; lia).
  apply turn_spec in Hact. destruct Hact as (Hi & _ & _ & _ & _ & _ & Htr).
  rewrite (model_calls_turn _ _ _ _ Htr). rewrite IH, Hi. simpl. lia.
Qed.

(** X16.  [iterations] is the number of calls made to the model during the run,
    the call that raised (if one did) included. *)
Theorem iterations_count_model_calls
        rt ews env (w : World env) (q : string) :
  let r := run env (process_query rt ews q) w in
  run_iterations (value_of r) = length (model_calls (trace_of r)).
Proof.
  cbn zeta.
  destruct (run_process_query rt ews env w q) as (out & w' & Hloop & _ & Hval).
  rewrite Hval.
  pose proof (loop_run_count _ _ _ _ _ _ _ Hloop) as Hcount.
  cbn [initial_state iterations Nat.add] in Hcount. rewrite <- Hcount.
  destruct out as [st [e |]]; cbn [fst].
  - reflexivity.
  - apply conclude_fields.
Qed.

Lemma try_outcome_events rt env (w : World env) (query_json : json) :
  let evs := events_of (run env (_tool_execute_query rt query_json) w) in
  (length evs <= 1)%nat
  /\ Forall (event_of_tool "execute_mongodb_query") evs.
Proof.
  cbn zeta. unfold _tool_execute_query. rewrite events_of_pbind_ret.
  pose proof (run_execute_try rt env query_json w) as Htry.
  unfold try_outcome in Htry. unfold events_of.
  destruct (run env (execute_try rt query_json) w) as [[r w1] tr].
  cbn [snd].
  destruct tr as [| o [| o' tr]]; [| | contradiction].
  - split; [simpl; lia | constructor].
  - split; [simpl; lia |].
    repeat constructor.
    destruct o as [e a]. destruct e; simpl in *; try contradiction;
      reflexivity.
Qed.

(** X15.  One tool call makes at most one external call, of the kind of its
    tool: the schema tool reads one sample document, the translate tool
    calls the translator's model, the execute tool queries the store, the
    search tool searches the web, and an unknown name calls nothing.  No
    tool calls the agent's own model. *)
Theorem tool_call_makes_one_external_call
        rt env (w : World env) (tool_call : ToolCall) :
  let evs := events_of (run env (dispatch rt tool_call) w) in
  (length evs <= 1)%nat
  /\ Forall (event_of_tool (tc_name tool_call)) evs
  /\ (known_tool (tc_name tool_call) = false -> evs = []).
Proof.
  cbn zeta. split; [| split].
  - unfold dispatch.
    destruct (String.eqb _ "get_collection_schema").
    { unfold get_collection_schema, events_of. simpl.
      destruct (handle env _ w). simpl. lia. }
    destruct (String.eqb _ "translate_query").
    { unfold _tool_translate_query, translate, ebind, pure, events_of. simpl.
      destruct (handle env _ w) as [r w1]. destruct r; simpl; lia. }
    destruct (String.eqb _ "execute_mongodb_query").
    { apply try_outcome_events. }
    destruct (String.eqb _ "search_web").
    { unfold _tool_search_web, events_of. simpl.
      destruct (handle env _ w). simpl. lia. }
    simpl. lia.
  - unfold dispatch.
    destruct (String.eqb_spec (tc_name tool_call) "get_collection_schema")
      as [-> | _].
    { unfold get_collection_schema, events_of. simpl.
      destruct (handle env _ w). repeat constructor. }
    destruct (String.eqb_spec (tc_name tool_call) "translate_query")
      as [-> | _].
    { unfold _tool_translate_query, translate, ebind, pure, events_of. simpl.
      destruct (handle env _ w) as [r w1].
      destruct r; repeat constructor. }
    destruct (String.eqb_spec (tc_name tool_call) "execute_mongodb_query")
      as [-> | _].
    { apply try_outcome_events. }
    destruct (String.eqb_spec (tc_name tool_call) "search_web") as [-> | _].
    { unfold _tool_search_web, events_of. simpl.
      destruct (handle env _ w). repeat constructor. }
    constructor.
  - intros Hunknown. unfold events_of.
    rewrite (dispatch_unknown rt env w tool_call Hunknown). reflexivity.
Qed.

Lemma tool_call_makes_one_external_call_witness :
  known_tool "drop_database" = false
  /\ events_of (run (fixture_env store_fixture)
                    (dispatch demo_rt
                       {| tc_name := "drop_database"; tc_args := [];
                          tc_id := "call_7" |}) 0%nat) = [].
Proof.
  split; [reflexivity |].
  exact (proj2 (proj2 (tool_call_makes_one_external_call
                         demo_rt (fixture_env store_fixture) 0%nat
                         {| tc_name := "drop_database"; tc_args := [];
                            tc_id := "call_7" |})) eq_refl).
Defined.

(** X17.  An answer before the cap is what the run returns.  When the model's
    call number k (k below 8) is answered without a tool call, the run
    ends there with [success] true, no error, the extracted text of that
    answer as [response], [iterations] = k, and as [tools_used] the names
    of the tool calls of the earlier answers, in order. *)
Theorem answer_before_cap_is_returned
        rt ews env (w : World env) (q : string)
        before msgs ai (text : string) :
  let r := run env (process_query rt ews q) w in
  model_calls (trace_of r) = before ++ [(msgs, inr ai)] ->
  tool_calls ai = [] ->
  (length before < 7)%nat ->
  _extract_text_from_response rt (content ai) = inr text ->
  success (value_of r) = true
  /\ error (value_of r) = None
  /\ response (value_of r) = text
  /\ run_iterations (value_of r) = S (length before)
  /\ tools_used (value_of r)
     = flat_map (fun m => map tc_name (tool_calls m)) (replies before).
Proof.
  cbn zeta. intros Hlast Hnone Hlen Htext.
  destruct (run_process_query rt ews env w q) as (out & w' & Hloop & _ & Hval).
  destruct (loop_run_answer _ _ _ _ _ _ _ Hloop _ _ _ Hlast Hnone)
    as (Hexn & Hfinal & Hiter).
  destruct (loop_run_dialogue _ _ _ _ _ _ _ Hloop) as [_ Hmade].
  destruct out as [st oe]. cbn [fst snd] in *. subst oe.
  rewrite Hlast, length_app in Hiter. cbn [length initial_state iterations]
    in Hiter.
  rewrite Hval.
  rewrite (conclude_below_cap rt ews q st text);
    [| rewrite Hiter; unfold max_iterations; lia
     | rewrite Hfinal; exact Htext].
  cbn [success error response run_iterations tools_used].
  repeat split; [lia |].
  rewrite Hmade. unfold model_replies. rewrite Hlast.
  unfold replies. rewrite !flat_map_app. cbn [flat_map snd app].
  rewrite Hnone. cbn [map initial_state tool_calls_made app].
  now rewrite app_nil_r.
Qed.

Lemma answer_before_cap_is_returned_witness :
  let r := run (fixture_env two_calls_fixture)
               (process_query demo_rt true orders_question) 0%nat in
  success (value_of r) = true
  /\ error (value_of r) = None
  /\ response (value_of r) = "There are 42 orders in the database."
  /\ run_iterations (value_of r) = 2%nat
  /\ tools_used (value_of r) = ["get_collection_schema"; "drop_database"].
Proof.
  cbn zeta.
  set (r := run (fixture_env two_calls_fixture)
                (process_query demo_rt true orders_question) 0%nat).
  set (conv := messages (initial_state demo_rt true orders_question)).
  assert (Hcalls : model_calls (trace_of r)
                   = [(conv, inr two_calls)]
                     ++ [(fst (last (model_calls (trace_of r))
                                    ([], inr final_answer)),
                          inr final_answer)])
    by (vm_compute; reflexivity).
  exact (answer_before_cap_is_returned
           demo_rt true (fixture_env two_calls_fixture) 0%nat
           orders_question [(conv, inr two_calls)] _ final_answer
           "There are 42 orders in the database."
           Hcalls eq_refl ltac:(simpl; lia) eq_refl).
Defined.

(** ** Text extraction *)

Lemma concat_empty_sep (texts : list string) :
  String.concat "" texts = fold_right String.append "" texts.
Proof.
  induction texts as [| t [| t' texts] IH].
  - reflexivity.
  - cbn. induction t as [| c t IHt]; [reflexivity |].
    cbn. now rewrite <- IHt.
  - change (String.concat "" (t :: t' :: texts))
      with (String.append t (String.append "" (String.concat "" (t' :: texts)))).
    rewrite IH. reflexivity.
Qed.

Lemma text_parts_fragments (items : list json) (texts : list string) :
  Forall2 text_fragment items texts ->
  text_parts items = map JStr texts.
Proof.
  induction 1 as [| item t items texts Hfrag _ IH]; [reflexivity |].
  unfold text_parts in *. cbn [flat_map map].
  rewrite IH.
  destruct Hfrag as [-> | (d & -> & Hd)].
  - reflexivity.
  - rewrite Hd. reflexivity.
Qed.

Lemma join_parts_strings (i : nat) (texts : list string) :
  join_parts_from i (map JStr texts)
  = inr (fold_right String.append "" texts).
Proof.
  revert i. induction texts as [| t texts IH]; intros i; [reflexivity |].
  cbn [map join_parts_from fold_right]. rewrite IH. reflexivity.
Qed.

(** X20.  [_extract_text_from_response] on a list of fragments that each carry
    a text (a plain string, or a dict with a string under [text]) returns
    the texts joined in order, with nothing between them. *)
Theorem extract_text_joins_fragments
        rt (items : list json) (texts : list string) :
  Forall2 text_fragment items texts ->
  items <> [] ->
  _extract_text_from_response rt (CBlocks items)
  = inr (String.concat "" texts).
Proof.
  intros Hfrags Hne.
  unfold _extract_text_from_response.
  rewrite (text_parts_fragments items texts Hfrags).
  destruct Hfrags as [| item t items texts _ _]; [congruence |].
  cbn [map]. unfold join_parts.
  change (JStr t :: map JStr texts) with (map JStr (t :: texts)).
  rewrite join_parts_strings. now rewrite concat_empty_sep.
Qed.

Lemma extract_text_joins_fragments_witness :
  _extract_text_from_response demo_rt
    (CBlocks [JDict [("type", JStr "text"); ("text", JStr "There are ")];
              JStr "42";
              JDict [("text", JStr " orders.")]])
  = inr "There are 42 orders.".
Proof.
  refine (extract_text_joins_fragments demo_rt _
            ["There are "; "42"; " orders."] _ _).
  - apply Forall2_cons; [right; eexists; split; reflexivity |].
    apply Forall2_cons; [left; reflexivity |].
    apply Forall2_cons; [right; eexists; split; reflexivity |].
    apply Forall2_nil.
  - discriminate.
Defined.

Lemma join_parts_non_string (i : nat) (parts : list json) :
  Exists (fun part => forall s, part <> JStr s) parts ->
  exists e, join_parts_from i parts = inl e.
Proof.
  intros Hbad. revert i.
  induction Hbad as [part parts Hpart | part parts _ IH]; intros i.
  - destruct part; cbn [join_parts_from]; unfold raise; eauto.
    exfalso. eapply Hpart. reflexivity.
  - destruct part; cbn [join_parts_from]; unfold raise; eauto.
    destruct (IH (S i)) as [e ->]. cbn [rbind]. eauto.
Qed.

Lemma text_parts_non_string (items : list json) :
  Exists (fun item => exists d v,
              item = JDict d /\ dict_get d "text" = Some v
              /\ forall s, v <> JStr s) items ->
  Exists (fun part => forall s, part <> JStr s) (text_parts items).
Proof.
  unfold text_parts.
  induction 1 as [item items (d & v & -> & Hd & Hv) | item items _ IH];
    cbn [flat_map].
  - rewrite Hd. left. exact Hv.
  - apply Exists_app. right. exact IH.
Qed.

(** X21.  A final answer with a fragment whose [text] is not a string cannot be
    joined: the [TypeError] of the join is caught by [process_query], and
    the run, though the model answered, is reported with [success] false
    and the error text. *)
Theorem non_string_fragment_fails_the_run
        rt ews env (w : World env) (q : string)
        before msgs ai (items : list json) :
  let r := run env (process_query rt ews q) w in
  model_calls (trace_of r) = before ++ [(msgs, inr ai)] ->
  tool_calls ai = [] ->
  (length (model_calls (trace_of r)) < max_iterations)%nat ->
  content ai = CBlocks items ->
  Exists (fun item => exists d v,
              item = JDict d /\ dict_get d "text" = Some v
              /\ forall s, v <> JStr s) items ->
  success (value_of r) = false
  /\ exists msg, error (value_of r) = Some msg
                 /\ response (value_of r) = _get_error_response q msg.
Proof.
  cbn zeta. intros Hlast Hnone Hlen Hcontent Hbad.
  destruct (run_process_query rt ews env w q) as (out & w' & Hloop & _ & Hval).
  destruct (loop_run_answer _ _ _ _ _ _ _ Hloop _ _ _ Hlast Hnone)
    as (Hexn & Hfinal & Hiter).
  destruct out as [st oe]. cbn [fst snd] in *. subst oe.
  rewrite Hval. unfold conclude.
  replace (max_iterations <=? iterations st)%nat with false
    by (symmetry; apply Nat.leb_gt; rewrite Hiter; exact Hlen).
  rewrite Hfinal, Hcontent. unfold _extract_text_from_response.
  pose proof (text_parts_non_string items Hbad) as Hparts.
  destruct (join_parts_non_string 0 _ Hparts) as [e He].
  destruct (text_parts items) as [| part parts] eqn:Htp.
  - inversion Hparts.
  - unfold join_parts. rewrite He. simpl. eauto.
Qed.

Lemma non_string_fragment_fails_the_run_witness :
  let r := run (fixture_env odd_answer_fixture)
               (process_query demo_rt true orders_question) 0%nat in
  success (value_of r) = false
  /\ exists msg, error (value_of r) = Some msg
                 /\ response (value_of r)
                    = _get_error_response orders_question msg.
Proof.
  cbn zeta.
  set (r := run (fixture_env odd_answer_fixture)
                (process_query demo_rt true orders_question) 0%nat).
  assert (Hcalls : model_calls (trace_of r)
                   = [] ++ [(messages (initial_state demo_rt true
                                                      orders_question),
                             inr odd_answer)])
    by (vm_compute; reflexivity).
  pose proof (non_string_fragment_fails_the_run
                demo_rt true (fixture_env odd_answer_fixture) 0%nat
                orders_question [] _ odd_answer
                [JDict [("type", JStr "text"); ("text", JNum 42)]]
                Hcalls eq_refl) as H.
  fold r in H. rewrite Hcalls in H.
  apply H; [simpl; unfold max_iterations; lia | reflexivity |].
  left. eexists. eexists. split; [reflexivity |].
  split; [reflexivity | discriminate].
Defined.

(** ** Session history *)

Lemma add_to_history_last_ten (pre : list HistoryEntry) (i : Interaction) :
  _add_to_history (last_ten pre) (i_now i) (i_question i) (i_response i)
                  (i_query i) (i_results i)
  = last_ten (pre ++ [entry_of i]).
Proof.
  unfold _add_to_history, last_ten. cbv zeta.
  change {| h_timestamp := i_now i; h_question := i_question i;
            h_response := i_response i; h_query := i_query i;
            h_results_count := length (i_results i) |} with (entry_of i).
  destruct (Nat.le_gt_cases (length pre) 9) as [Hle | Hgt].
  - replace (length pre - 10)%nat with 0%nat by lia.
    cbn [skipn]. rewrite length_app. cbn [length].
    replace (length pre + 1 - 10)%nat with 0%nat by lia.
    replace (10 <? length pre + 1)%nat with false
      by (symmetry; apply Nat.ltb_ge; lia).
    reflexivity.
  - assert (Hlen : length (skipn (length pre - 10) pre) = 10%nat)
      by (rewrite length_skipn; lia).
    rewrite !length_app, Hlen. cbn [length].
    change (10 <? 10 + 1)%nat with true. cbv iota.
    change (10 + 1 - 10)%nat with 1%nat.
    rewrite skipn_app, Hlen.
    change (1 - 10)%nat with 0%nat.
    rewrite skipn_skipn.
    rewrite (skipn_app (length pre + 1 - 10)).
    replace (length pre + 1 - 10 - length pre)%nat with 0%nat by lia.
    replace (1 + (length pre - 10))%nat with (length pre + 1 - 10)%nat by lia.
    reflexivity.
Qed.

Lemma record_all_last_ten (l : list Interaction) :
  forall pre : list HistoryEntry,
    record_all (last_ten pre) l = last_ten (pre ++ map entry_of l).
Proof.
  unfold record_all.
  induction l as [| i l IH]; intros pre; cbn [fold_left map].
  - now rewrite app_nil_r.
  - rewrite add_to_history_last_ten, IH, <- app_assoc. reflexivity.
Qed.

(** X22.  The history is a window on the last ten interactions.  One call of
    [_add_to_history] leaves at most ten entries, whatever it started
    from, and the newest is the last of them; after any number of
    interactions since the history was cleared, the history holds the
    entries of the last ten of them (of all, when there were fewer) in the
    order they were made. *)
Theorem history_keeps_last_ten :
  (forall history now question response query results,
      let h := _add_to_history history now question response query results in
      length h = Nat.min (S (length history)) 10
      /\ last h {| h_timestamp := ""; h_question := ""; h_response := "";
                   h_query := None; h_results_count := 0 |}
         = {| h_timestamp := now; h_question := question;
              h_response := response; h_query := query;
              h_results_count := length results |})
  /\ (forall l : list Interaction,
         record_all clear_history l = last_ten (map entry_of l)
         /\ length (record_all clear_history l) = Nat.min (length l) 10).
Proof.
  split.
  - intros history now question response query results. cbn zeta.
    unfold _add_to_history. cbv zeta.
    set (e := {| h_timestamp := now; h_question := question;
                 h_response := response; h_query := query;
                 h_results_count := length results |}).
    rewrite length_app. cbn [length].
    destruct (10 <? length history + 1)%nat eqn:Hlt.
    + apply Nat.ltb_lt in Hlt. split.
      * rewrite length_skipn, length_app. cbn [length]. lia.
      * rewrite skipn_app.
        replace (length history + 1 - 10 - length history)%nat with 0%nat
          by lia.
        cbn [skipn]. apply last_last.
    + apply Nat.ltb_ge in Hlt. split.
      * rewrite length_app. cbn [length]. lia.
      * apply last_last.
  - intros l.
    pose proof (record_all_last_ten l []) as H.
    change (last_ten []) with (@nil HistoryEntry) in H.
    cbn [app] in H. unfold clear_history. rewrite H. split; [reflexivity |].
    unfold last_ten. rewrite length_skipn, length_map. lia.
Qed.

(** ** The translator's reply: stripping and code fences *)

Lemma append_nil_r (s : string) : String.append s "" = s.
Proof. induction s as [| c s IH]; simpl; [reflexivity | now rewrite IH]. Qed.

Lemma append_assoc (a b c : string) :
  String.append (String.append a b) c = String.append a (String.append b c).
Proof. induction a as [| x a IH]; simpl; [reflexivity | now rewrite IH]. Qed.

Lemma prefix_drop_prefix (p s : string) :
  String.prefix p s = true <-> drop_prefix p s <> None.
Proof.
  revert s. induction p as [| a p IH]; intros s.
  - destruct s; simpl; split; (discriminate || reflexivity).
  - destruct s as [| b s]; simpl; [split; [discriminate | congruence] |].
    destruct (ascii_dec a b) as [-> | Hne].
    + rewrite Ascii.eqb_refl. apply IH.
    + apply Ascii.eqb_neq in Hne. rewrite Hne.
      split; [discriminate | congruence].
Qed.

Lemma is_substring_cut (sep s : string) :
  is_substring sep s = true <-> cut sep s <> None.
Proof.
  induction s as [| c s IH].
  - cbn [is_substring cut]. rewrite orb_false_r. rewrite prefix_drop_prefix.
    destruct (drop_prefix sep ""); split; congruence.
  - cbn [is_substring cut]. rewrite orb_true_iff, IH, prefix_drop_prefix.
    destruct (drop_prefix sep (String c s)).
    + split; [discriminate | left; discriminate].
    + destruct (cut sep s) as [[b a] |].
      * split; [discriminate | right; discriminate].
      * split; [intros [H | H]; congruence | congruence].
Qed.

Lemma drop_prefix_app (p rest : string) :
  drop_prefix p (String.append p rest) = Some rest.
Proof.
  induction p as [| a p IH]; simpl; [reflexivity |].
  now rewrite Ascii.eqb_refl.
Qed.

Lemma cut_at_sep (sep rest : string) :
  cut sep (String.append sep rest) = Some ("", rest).
Proof.
  destruct sep as [| a sep]; [destruct rest; reflexivity |].
  cbn [String.append cut].
  change (String a (String.append sep rest))
    with (String.append (String a sep) rest).
  now rewrite drop_prefix_app.
Qed.

(** A stretch without backticks is skipped by the search for a separator
    that starts with one. *)
Lemma cut_skip (sep pre rest : string) :
  no_backtick pre = true ->
  cut (String "`" sep) (String.append pre rest)
  = match cut (String "`" sep) rest with
    | Some (before, after) => Some (String.append pre before, after)
    | None => None
    end.
Proof.
  intros Hpre. induction pre as [| c pre IH].
  - cbn [String.append]. destruct (cut (String "`" sep) rest) as [[b a] |];
      reflexivity.
  - cbn [no_backtick] in Hpre. apply andb_true_iff in Hpre.
    destruct Hpre as [Hc Hpre]. apply negb_true_iff in Hc.
    cbn [String.append cut drop_prefix].
    rewrite Ascii.eqb_sym, Hc. rewrite (IH Hpre).
    destruct (cut (String "`" sep) rest) as [[b a] |]; reflexivity.
Qed.

Lemma cut_no_backtick (sep s : string) :
  no_backtick s = true -> cut (String "`" sep) s = None.
Proof.
  intros Hs. pose proof (cut_skip sep s "" Hs) as H.
  rewrite append_nil_r in H. exact H.
Qed.

Lemma lstrip_app (pre : string) (c : ascii) (rest : string) :
  is_space c = false ->
  lstrip (String.append pre (String c rest))
  = String.append (lstrip pre) (String c rest).
Proof.
  intros Hc. induction pre as [| x pre IH]; cbn [String.append lstrip].
  - now rewrite Hc.
  - destruct (is_space x); [exact IH | reflexivity].
Qed.

Lemma rstrip_app (a : string) (c : ascii) (post : string) :
  is_space c = false ->
  rstrip (String.append a (String c post))
  = String.append a (String c (rstrip post)).
Proof.
  intros Hc. induction a as [| x a IH]; cbn [String.append rstrip].
  - rewrite Hc. destruct (rstrip post); reflexivity.
  - rewrite IH. destruct a; reflexivity.
Qed.

Lemma no_backtick_lstrip (s : string) :
  no_backtick s = true -> no_backtick (lstrip s) = true.
Proof.
  induction s as [| c s IH]; [reflexivity |].
  intros H. cbn [lstrip]. destruct (is_space c); [| exact H].
  apply IH. cbn [no_backtick] in H. now apply andb_true_iff in H.
Qed.

Lemma no_backtick_rstrip (s : string) :
  no_backtick s = true -> no_backtick (rstrip s) = true.
Proof.
  induction s as [| c s IH]; [reflexivity |].
  intros H. cbn [no_backtick] in H. apply andb_true_iff in H.
  destruct H as [Hc Hs]. cbn [rstrip]. specialize (IH Hs).
  destruct (rstrip s) as [| y kept].
  - destruct (is_space c); [reflexivity |].
    cbn [no_backtick]. now rewrite Hc.
  - cbn [no_backtick] in *. now rewrite Hc, IH.
Qed.

Lemma is_substring_app (sep a b : string) :
  is_substring sep (String.append a (String.append sep b)) = true.
Proof.
  induction a as [| x a IH]; cbn [String.append].
  - apply is_substring_cut. rewrite cut_at_sep. discriminate.
  - cbn [is_substring]. rewrite IH. apply orb_true_r.
Qed.

(** X7.  The fence removal never raises: the [split(...)[1]] it takes is
    guarded by the membership test before it. *)
Theorem clean_reply_never_raises (reply : string) :
  exists text, clean_reply reply = inr text.
Proof.
  unfold clean_reply. cbv zeta.
  assert (Hunfence : forall opening s,
             is_substring opening s = true ->
             exists text, unfence opening s = inr text).
  { intros opening s Hin. apply is_substring_cut in Hin.
    unfold unfence, split_item1, rbind.
    destruct (cut opening s) as [[b a] |]; [eauto | congruence]. }
  destruct (is_substring json_fence (strip reply)) eqn:Hjson;
    [now apply Hunfence |].
  destruct (is_substring fence (strip reply)) eqn:Hfence;
    [now apply Hunfence | eauto].
Qed.

Lemma prefix_weaken (p q s : string) :
  String.prefix (String.append p q) s = true -> String.prefix p s = true.
Proof.
  revert s. induction p as [| a p IH]; intros s.
  - destruct s; reflexivity.
  - destruct s as [| b s]; simpl; [discriminate |].
    destruct (ascii_dec a b); [apply IH | discriminate].
Qed.

Lemma is_substring_weaken (p q s : string) :
  is_substring (String.append p q) s = true -> is_substring p s = true.
Proof.
  induction s as [| c s IH]; cbn [is_substring];
    rewrite !orb_true_iff.
  - intros [H | H]; [left; exact (prefix_weaken p q _ H) | discriminate].
  - intros [H | H]; [left; exact (prefix_weaken p q _ H) | right; auto].
Qed.

(** X8.  A reply without a code fence is passed on as it is, stripped. *)
Theorem clean_reply_without_fence (reply : string) :
  is_substring fence (strip reply) = false ->
  clean_reply reply = inr (strip reply).
Proof.
  intros Hnone. unfold clean_reply. cbv zeta.
  destruct (is_substring json_fence (strip reply)) eqn:Hjson.
  - apply (is_substring_weaken fence "json") in Hjson. congruence.
  - rewrite Hnone. reflexivity.
Qed.

Lemma clean_reply_without_fence_witness :
  clean_reply "  {'query_type': 'find', 'query': {'filter': {}}}
"
  = inr "{'query_type': 'find', 'query': {'filter': {}}}".
Proof.
  exact (clean_reply_without_fence
           "  {'query_type': 'find', 'query': {'filter': {}}}
" eq_refl).
Defined.

Lemma cut_unfold (sep s : string) :
  cut sep s
  = match drop_prefix sep s with
    | Some rest => Some ("", rest)
    | None =>
        match s with
        | EmptyString => None
        | String c r =>
            match cut sep r with
            | Some (before, after) => Some (String c before, after)
            | None => None
            end
        end
    end.
Proof. destruct s; reflexivity. Qed.

Lemma drop_prefix_cons (a : ascii) (p s : string) :
  drop_prefix (String a p) (String a s) = drop_prefix p s.
Proof. cbn [drop_prefix]. now rewrite Ascii.eqb_refl. Qed.

Lemma drop_prefix_backtick (p s : string) :
  no_backtick s = true -> drop_prefix (String "`" p) s = None.
Proof.
  destruct s as [| c s]; [reflexivity |].
  cbn [no_backtick drop_prefix]. intros H. apply andb_true_iff in H.
  destruct H as [Hc _]. apply negb_true_iff in Hc.
  rewrite Ascii.eqb_sym in Hc. now rewrite Hc.
Qed.

Lemma cut_json_after_fence (post : string) :
  no_backtick post = true ->
  cut json_fence (String.append fence post)
  = match drop_prefix "json" post with
    | Some rest => Some ("", rest)
    | None => None
    end.
Proof.
  intros Hpost.
  change (String.append fence post)
    with (String "`" (String "`" (String "`" post))).
  change json_fence with (String "`" (String "`" (String "`" "json"))).
  rewrite cut_unfold. rewrite !drop_prefix_cons.
  destruct (drop_prefix "json" post) as [rest |]; [reflexivity |].
  rewrite cut_unfold. rewrite !drop_prefix_cons.
  rewrite (drop_prefix_backtick _ post Hpost).
  rewrite cut_unfold. rewrite !drop_prefix_cons.
  rewrite (drop_prefix_backtick _ post Hpost).
  rewrite (cut_no_backtick _ post Hpost). reflexivity.
Qed.

(** X9.  A reply that wraps its JSON in a [```json] fence: when neither the
    text before the fence, nor the text inside it, nor the text after it
    holds a backtick, what is handed to [json.loads] is the text inside
    the fence, stripped. *)
Theorem clean_reply_takes_fenced_text (pre body post : string) :
  no_backtick pre = true ->
  no_backtick body = true ->
  no_backtick post = true ->
  clean_reply
    (String.append pre
       (String.append json_fence
          (String.append body (String.append fence post))))
  = inr (strip body).
Proof.
  intros Hpre Hbody Hpost.
  set (pre' := lstrip pre). set (post' := rstrip post).
  assert (Hpre' : no_backtick pre' = true) by now apply no_backtick_lstrip.
  assert (Hpost' : no_backtick post' = true) by now apply no_backtick_rstrip.
  assert (Hstrip :
    strip (String.append pre
             (String.append json_fence
                (String.append body (String.append fence post))))
    = String.append pre'
        (String.append json_fence
           (String.append body (String.append fence post')))).
  { unfold strip, json_fence, fence.
    change (String.append "```json" ?x) with (String "`" (String.append "``json" x)).
    rewrite lstrip_app by reflexivity. fold pre'.
    replace (String.append pre'
               (String "`"
                  (String.append "``json"
                     (String.append body (String.append "```" post)))))
      with (String.append
              (String.append pre'
                 (String.append "```json" (String.append body "``")))
              (String "`" post))
      by (rewrite !append_assoc; reflexivity).
    rewrite rstrip_app by reflexivity. fold post'.
    rewrite !append_assoc. reflexivity. }
  unfold clean_reply. cbv zeta. rewrite Hstrip.
  rewrite is_substring_app.
  unfold unfence, split_item1, rbind.
  unfold json_fence at 1.
  rewrite (cut_skip "``json" pre' _ Hpre').
  change (String "`" "``json") with json_fence.
  rewrite cut_at_sep.
  f_equal. f_equal.
  unfold split_item0 at 2. unfold json_fence.
  rewrite (cut_skip "``json" body _ Hbody).
  change (String "`" "``json") with json_fence.
  rewrite (cut_json_after_fence post' Hpost').
  destruct (drop_prefix "json" post') as [rest |].
  - rewrite append_nil_r. unfold split_item0, fence.
    now rewrite (cut_no_backtick "``" body Hbody).
  - unfold split_item0, fence.
    rewrite (cut_skip "``" body _ Hbody).
    change (String "`" "``") with fence. rewrite cut_at_sep.
    apply append_nil_r.
Qed.

Lemma clean_reply_takes_fenced_text_witness :
  clean_reply
    (String.append "Here is the query:
"
       (String.append json_fence
          (String.append "
{'query_type': 'find', 'query': {'filter': {}}}
"
             (String.append fence " Done."))))
  = inr "{'query_type': 'find', 'query': {'filter': {}}}".
Proof.
  exact (clean_reply_takes_fenced_text
           "Here is the query:
"
           "
{'query_type': 'find', 'query': {'filter': {}}}
"
           " Done." eq_refl eq_refl eq_refl).
Defined.

(** ** The conversation at the end of the loop *)

Lemma observed_ids (calls : list ToolCall) (obs : list Message) :
  observed calls obs ->
  tool_message_ids obs = map tc_id calls /\ ai_messages obs = [].
Proof.
  induction 1 as [| tool_call calls out obs _ _ [IHi IHa]].
  - split; reflexivity.
  - unfold tool_message_ids, ai_messages in *. cbn [flat_map map app].
    rewrite IHi, IHa. split; reflexivity.
Qed.

Lemma dialogue_transcript conv calls conv' :
  dialogue conv calls conv' ->
  (exists added, conv' = conv ++ added)
  /\ ai_messages conv' = ai_messages conv ++ replies calls
  /\ tool_message_ids conv'
     = tool_message_ids conv
       ++ flat_map (fun ai => map tc_id (tool_calls ai)) (replies calls).
Proof.
  induction 1 as
    [ conv | conv e
    | conv ai obs calls conv' Hobs _ (Hadd & Hai & Hids) ].
  - split; [exists []; now rewrite app_nil_r |].
    cbn [replies flat_map]. now rewrite !app_nil_r.
  - split; [exists []; now rewrite app_nil_r |].
    cbn [replies flat_map snd app]. now rewrite !app_nil_r.
  - destruct (observed_ids _ _ Hobs) as [Hoi Hoa].
    split; [| split].
    + destruct Hadd as [added ->]. exists (AIMsg ai :: obs ++ added).
      rewrite <- app_assoc. reflexivity.
    + rewrite Hai. unfold ai_messages, replies.
      rewrite flat_map_app. cbn [flat_map snd app].
      fold (ai_messages obs). rewrite Hoa, <- app_assoc. reflexivity.
    + rewrite Hids. unfold tool_message_ids, replies.
      rewrite flat_map_app. cbn [flat_map snd app].
      fold (tool_message_ids obs). rewrite Hoi, <- app_assoc.
      reflexivity.
Qed.

(** X19.  The conversation the loop ends with begins with the system prompt and
    the question; its model messages are the answers of the model, in
    order; and the ids of its tool messages are the ids of the tool calls
    of those answers, call by call, in order. *)
Theorem conversation_transcript rt ews env (w : World env) (q : string) :
  let r := run env (agent_loop rt max_iterations (initial_state rt ews q)) w in
  let conv := messages (fst (value_of r)) in
  (exists added,
      conv = SystemMessage (system_prompt_text rt ews)
             :: HumanMessage q :: added)
  /\ ai_messages conv = model_replies (trace_of r)
  /\ tool_message_ids conv
     = flat_map (fun ai => map tc_id (tool_calls ai))
                (model_replies (trace_of r)).
Proof.
  cbn zeta.
  destruct (run_process_query rt ews env w q)
    as (out & w' & Hloop & Hrun & _).
  rewrite Hrun. unfold value_of, trace_of. cbn [fst snd].
  destruct (loop_run_dialogue _ _ _ _ _ _ _ Hloop) as [Hd _].
  destruct (dialogue_transcript _ _ _ Hd) as ((added & Hadd) & Hai & Hids).
  split; [exists added; exact Hadd |].
  split; [exact Hai | exact Hids].
Qed.

(** The loop stops at the first answer and at the first failure: a model
    call that is followed by another one returned a message that asks for
    a tool. *)
Lemma loop_run_continues rt env st (w : World env) out w' tr :
  loop_run rt env st w out w' tr ->
  forall before c after,
    model_calls tr = before ++ c :: after ->
    after <> [] ->
    exists ai, snd c = inr ai /\ tool_calls ai <> [].
Proof.
  induction 1 as
    [ st w Hge
    | st w w1 e Hlt Hh
    | st w w1 ai Hlt Hh Hcalls
    | st w w1 ai st2 w2 tr2 out w3 tr3 Hlt Hh Hcalls Hact Hrest IH ];
    intros before c after Hsplit Hafter.
  - destruct before; discriminate.
  - destruct before as [| x [| y before]]; simpl in Hsplit;
      try discriminate.
    injection Hsplit as _ <-. congruence.
  - destruct before as [| x [| y before]]; simpl in Hsplit;
      try discriminate.
    injection Hsplit as _ <-. congruence.
  - apply turn_spec in Hact. destruct Hact as (_ & _ & _ & _ & _ & _ & Htr).
    rewrite (model_calls_turn _ _ _ _ Htr) in Hsplit.
    destruct before as [| x before]; simpl in Hsplit.
    + injection Hsplit as <- _. exists ai. split; [reflexivity | exact Hcalls].
    + injection Hsplit as _ Hsplit. exact (IH _ _ _ Hsplit Hafter).
Qed.

(** X18.  The model is never called again after it answered without a tool
    call, nor after a call to it raised: every model call of a run that is
    not the last one returned a message with tool calls. *)
Theorem model_is_not_called_after_the_end
        rt ews env (w : World env) (q : string) before c after :
  let r := run env (process_query rt ews q) w in
  model_calls (trace_of r) = before ++ c :: after ->
  after <> [] ->
  exists ai, snd c = inr ai /\ tool_calls ai <> [].
Proof.
  cbn zeta. intros Hsplit Hafter.
  destruct (run_process_query rt ews env w q) as (out & w' & Hloop & _ & _).
  exact (loop_run_continues _ _ _ _ _ _ _ Hloop _ _ _ Hsplit Hafter).
Qed.

Lemma model_is_not_called_after_the_end_witness :
  exists msgs last_call,
    model_calls (trace_of (run (fixture_env two_calls_fixture)
                               (process_query demo_rt true orders_question)
                               0%nat))
    = [] ++ (msgs, inr two_calls) :: [last_call]
    /\ exists ai, (inr two_calls : result AIMessage) = inr ai
                  /\ tool_calls ai <> [].
Proof.
  eexists. eexists.
  assert (H : model_calls
                (trace_of (run (fixture_env two_calls_fixture)
                               (process_query demo_rt true orders_question)
                               0%nat))
              = [] ++ (messages (initial_state demo_rt true orders_question),
                       inr two_calls)
                   :: [(messages (initial_state demo_rt true orders_question)
                        ++ AIMsg two_calls
                        :: [ToolMessage
                              (value_of (run (fixture_env two_calls_fixture)
                                             (get_collection_schema demo_rt)
                                             1%nat))
                              "call_1";
                            ToolMessage "Unknown Tool" "call_2"],
                        inr final_answer)])
    by (vm_compute; reflexivity).
  split; [exact H |].
  exact (model_is_not_called_after_the_end
           demo_rt true (fixture_env two_calls_fixture) 0%nat orders_question
           [] _ _ H ltac:(discriminate)).
Defined.

(** X10.  On fragments that each carry a text, the extraction of the translator
    and the extraction of the agent return the same string, the texts
    joined in order; on an empty list of fragments they differ: the
    translator returns the empty string, the agent the [str] of the
    list. *)
Theorem reply_text_agrees_on_text_fragments
        rt (items : list json) (texts : list string) :
  Forall2 text_fragment items texts ->
  reply_text rt (CBlocks items) = inr (String.concat "" texts)
  /\ (items <> [] ->
      _extract_text_from_response rt (CBlocks items)
      = reply_text rt (CBlocks items))
  /\ reply_text rt (CBlocks []) = inr ""
  /\ _extract_text_from_response rt (CBlocks [])
     = inr (py_repr rt (JList [])).
Proof.
  intros Hfrags.
  assert (Hparts : reply_parts rt items = map JStr texts).
  { induction Hfrags as [| item t items texts Hfrag _ IH]; [reflexivity |].
    unfold reply_parts in *. cbn [map]. rewrite IH.
    destruct Hfrag as [-> | (d & -> & Hd)]; [reflexivity |].
    rewrite Hd. reflexivity. }
  assert (Hreply : reply_text rt (CBlocks items)
                   = inr (String.concat "" texts)).
  { cbn [reply_text]. rewrite Hparts. unfold join_parts.
    rewrite join_parts_strings. now rewrite concat_empty_sep. }
  split; [exact Hreply |]. split; [| split; reflexivity].
  intros Hne. rewrite Hreply.
  unfold _extract_text_from_response.
  rewrite (text_parts_fragments items texts Hfrags).
  destruct Hfrags as [| item t items texts _ _]; [congruence |].
  cbn [map]. unfold join_parts.
  change (JStr t :: map JStr texts) with (map JStr (t :: texts)).
  rewrite join_parts_strings. now rewrite concat_empty_sep.
Qed.

Lemma reply_text_agrees_on_text_fragments_witness :
  reply_text demo_rt
    (CBlocks [JDict [("type", JStr "text"); ("text", JStr "There are ")];
              JStr "42 orders."])
  = inr "There are 42 orders.".
Proof.
  refine (proj1 (reply_text_agrees_on_text_fragments demo_rt _
                   ["There are "; "42 orders."] _)).
  apply Forall2_cons; [right; eexists; split; reflexivity |].
  apply Forall2_cons; [left; reflexivity |].
  apply Forall2_nil.
Defined.

(** ** Two more edges of the translator and the executor *)

(** X6.  Whatever the model replies, the handling of the reply raises no
    [KeyError]: a reply that lacks [query_type] or [query] is refused by
    the format check, with a [ValueError] that says [Invalid response
    format], so that the [except KeyError] of [translate] is never entered
    on account of the reply. *)
Theorem reply_handling_raises_no_key_error rt (text : string) :
  forall msg, translate_reply rt text <> inl (Exn KeyError msg).
Proof.
  intros msg. unfold translate_reply, rbind.
  destruct (json_loads rt text) as [m | parsed]; [discriminate |].
  unfold _validate_response_format, rbind.
  destruct parsed as [ | b | n | s | l | d ];
    cbn [py_contains py_getitem raise]; try discriminate.
  - destruct (is_substring "query_type" s); cbn [negb]; [| discriminate].
    destruct (is_substring "query" s); discriminate.
  - destruct (existsb (fun x => is_str x "query_type") l); cbn [negb];
      [| discriminate].
    destruct (existsb (fun x => is_str x "query") l); discriminate.
  - unfold dict_mem.
    destruct (dict_get d "query_type") as [query_type |]; cbn [negb];
      [| discriminate].
    destruct (dict_get d "query") as [query |]; cbn [negb];
      [| discriminate].
    destruct (is_str query_type "find" || is_str query_type "aggregate");
      cbn [negb]; [| discriminate].
    destruct (validate_query query_type query) as [[|] query'];
      discriminate.
Qed.

(** X13.  The executor reads two fields of a [find] query and no other: two
    [find] queries with the same [filter] and the same [limit] are run
    alike, whatever else ([sort], [projection], ...) they carry. *)
Theorem find_reads_only_filter_and_limit
        rt env (w : World env) (s1 s2 : string)
        (data1 data2 q1 q2 : list (string * json)) :
  json_loads rt s1 = inr (JDict data1) ->
  dict_get data1 "query_type" = Some (JStr "find") ->
  dict_get data1 "query" = Some (JDict q1) ->
  json_loads rt s2 = inr (JDict data2) ->
  dict_get data2 "query_type" = Some (JStr "find") ->
  dict_get data2 "query" = Some (JDict q2) ->
  dict_get q1 "filter" = dict_get q2 "filter" ->
  dict_get q1 "limit" = dict_get q2 "limit" ->
  run env (_tool_execute_query rt (JStr s1)) w
  = run env (_tool_execute_query rt (JStr s2)) w.
Proof.
  intros Hl1 Ht1 Hq1 Hl2 Ht2 Hq2 Hfilter Hlimit.
  rewrite (tool_execute_object rt s1 data1 _ Hl1 Ht1).
  rewrite (tool_execute_object rt s2 data2 _ Hl2 Ht2).
  rewrite (execute_data_object rt data1 _ _ Ht1 Hq1).
  rewrite (execute_data_object rt data2 _ _ Ht2 Hq2).
  unfold run_query, fetch_results.
  change (is_str (JStr "find") "find") with true. cbv iota.
  unfold dict_get_default. rewrite Hfilter, Hlimit. reflexivity.
Qed.

Lemma find_reads_only_filter_and_limit_witness :
  run (fixture_env store_fixture)
      (_tool_execute_query demo_rt3 (JStr sorted_text)) 0%nat
  = run (fixture_env store_fixture)
        (_tool_execute_query demo_rt3 (JStr wide_text)) 0%nat.
Proof.
  exact (find_reads_only_filter_and_limit
           demo_rt3 (fixture_env store_fixture) 0%nat
           sorted_text wide_text sorted_data wide_data sorted_query wide_query
           eq_refl eq_refl eq_refl eq_refl eq_refl eq_refl eq_refl eq_refl).
Defined.
